(** * e18e-tools: dependents ranked by downloads

    A shallow embedding of [src/index.ts] (the simplified command line
    tool) together with the facts that are proved about it.  The file
    [src/getDependents.ts] carries textually the same
    [getnameAndVersion], [accumulateStats], [filterExcludes] and the same
    tree-building part of [main]; what is proved here about those
    functions holds for both files.

    Conventions of the embedding.
    - JavaScript numbers that hold download counts, sizes and option
      values are integers ([Z]); [Infinity] is a separate constructor where
      the source uses it.
    - Strings are [string]; all the string operations of the source look
      for the one-character separators ["@"] and [","], so a string is read
      as its sequence of code units.
    - The network is a set of functions (a section's variables): the same
      request is answered the same way during one run.
    - [main] is asynchronous in the source; here it is a function into a
      writer/abort monad [M] that records what the run does (requests,
      console output, file writes) and how it ends. *)

From Stdlib Require Import ZArith List String Ascii Bool Lia Permutation Sorted.
From stdpp Require Import base option list strings gmap.

Set Warnings "-register-all".

Import ListNotations.
Local Open Scope string_scope.
Local Open Scope Z_scope.

(** ** JavaScript string primitives used by the program *)

Module JsString.

(** [s.startsWith(p)] *)
Definition startsWith (s p : string) : bool := String.prefix p s.

(** [s.includes(p)]: [p] occurs in [s] as a contiguous substring. *)
Fixpoint includes (s p : string) : bool :=
  String.prefix p s ||
  match s with
  | EmptyString => false
  | String _ s' => includes s' p
  end.

(** [s.split(sep)] for a one-character separator: the pieces between
    the occurrences of [sep]; never the empty list. *)
Fixpoint split (s : string) (sep : ascii) : list string :=
  match s with
  | EmptyString => [EmptyString]
  | String c s' =>
      if Ascii.eqb c sep then EmptyString :: split s' sep
      else match split s' sep with
           | piece :: pieces => String c piece :: pieces
           | [] => [String c EmptyString]
           end
  end.

Fixpoint lastIndexOf_from (s : string) (c : ascii) (i last : Z) : Z :=
  match s with
  | EmptyString => last
  | String a s' =>
      lastIndexOf_from s' c (i + 1) (if Ascii.eqb a c then i else last)
  end.

(** [s.lastIndexOf(c)]: the index of the last occurrence, or [-1]. *)
Definition lastIndexOf (s : string) (c : ascii) : Z :=
  lastIndexOf_from s c 0 (-1).

Definition strlen (s : string) : Z := Z.of_nat (String.length s).

(** An index argument of [slice]: negative counts from the end, and
    the result is clamped to [0 .. len]. *)
Definition relativeIndex (len i : Z) : Z :=
  if i <? 0 then Z.max (len + i) 0 else Z.min i len.

(** [s.slice(start, stop)] *)
Definition slice (s : string) (start stop : Z) : string :=
  let from := relativeIndex (strlen s) start in
  let to := relativeIndex (strlen s) stop in
  substring (Z.to_nat from) (Z.to_nat (Z.max (to - from) 0)) s.

(** [s.slice(start)] *)
Definition sliceFrom (s : string) (start : Z) : string :=
  slice s start (strlen s).

(** [c] occurs in [s]. *)
Fixpoint hasChar (s : string) (c : ascii) : bool :=
  match s with
  | EmptyString => false
  | String a s' => Ascii.eqb a c || hasChar s' c
  end.

(** The part of [s] before the first [c] (all of [s] without one). *)
Fixpoint upTo (s : string) (c : ascii) : string :=
  match s with
  | EmptyString => EmptyString
  | String a s' => if Ascii.eqb a c then EmptyString else String a (upTo s' c)
  end.

(** The part of [s] after the first [c], when there is one. *)
Fixpoint after (s : string) (c : ascii) : option string :=
  match s with
  | EmptyString => None
  | String a s' => if Ascii.eqb a c then Some s' else after s' c
  end.

End JsString.

Import JsString.

(** ** Input parser: [getPackageNameAndVersion] (index.ts 206-228) *)

Definition at_sign : ascii := "@"%char.

Definition getPackageNameAndVersion (inputPackage : string)
  : string * option string :=
  let scoped := startsWith inputPackage "@" in
  let parts := split inputPackage at_sign in
  let packageName := nth 0 parts EmptyString in
  let version := nth_error parts 1 in
  if scoped then
    let atPosition := lastIndexOf inputPackage at_sign in
    if atPosition =? 0 then (inputPackage, None)
    else (slice inputPackage 0 atPosition,
          Some (sliceFrom inputPackage (atPosition + 1)))
  else (packageName, version).

(** The parser as the specification words it for a token that does not
    start with ["@"]: the token is cut at its first ["@"], the name is
    what is before and the version is what is after. *)
Definition splitAtFirstAt (token : string) : string * option string :=
  (upTo token at_sign, after token at_sign).

(** ** Data model *)

(** [type Results] (index.ts 230-237): one scored dependent with the
    subtree that was expanded below it. *)
Inductive Results : Type := mkResults {
  name : string;
  downloads : Z;
  traffic : Z;
  isDevDependency : bool;
  children : list Results;
  version : string
}.

(** [interface Args] (index.ts 12-22).  An option that was not given is
    [None] ([undefined]) or [false].  The three numeric options are held
    as the numbers the interface declares.  The parser keeps such an
    option, when it is given on the command line, as its text (index.ts
    45-55); the text of an integer and the integer behave alike in the
    arithmetic, the slices and the comparisons of the program, and differ
    only where the option itself is a condition (index.ts 243, 318, 363):
    there the text of 0 counts as true and the number 0 as false.  A
    width or a depth 0 of this record is the number 0. *)
Record Args : Type := mkArgs {
  arg_pkg : string;
  arg_number : Z;
  arg_file : option string;
  arg_exclude : option string;
  arg_dev : bool;
  arg_list : bool;
  arg_recursive : Z;
  arg_depths : Z;
  arg_accumulate : bool
}.

(** [interface NpmPackageInfo]: the fields the program reads. *)
Record Dist : Type := mkDist { tarball : string; size : Z }.

Record NpmPackageInfo : Type := mkInfo {
  info_name : string;
  info_version : string;
  info_homepage : option string;
  info_dist : option Dist
}.

(** A row of a CouchDB view. *)
Record Row (V : Type) : Type := mkRow {
  row_id : string;
  row_key : string;
  row_value : V
}.
Arguments mkRow {V}.
Arguments row_id {V}.
Arguments row_key {V}.
Arguments row_value {V}.

(** [{ name, version }], the value of a row of the [dependents2] view. *)
Record DependentValue : Type := mkDep { dep_name : string; dep_version : string }.

(** [LocalDependendsResponseDev | LocalDependendsResponseProd] *)
Inductive DependentsResponse : Type :=
| DevResponse (rows : list (Row string))
| ProdResponse (rows : list (Row DependentValue)).

(** A JavaScript number that may be [Infinity]. *)
Inductive JsNum : Type := Num (z : Z) | Infinity.

(** What reading a property of the download-stats object can give: a
    number (an own property), [undefined], or a member that every object
    inherits from [Object.prototype]. *)
Inductive JsValue : Type :=
| JsNumber (z : Z)
| JsUndefined
| JsInherited (member : string).

(** ** JavaScript array and object primitives *)

(** A number is truthy unless it is [0]. *)
Definition truthy (z : Z) : bool := negb (z =? 0).

(** [!s] for an optional string: [undefined] and the empty string. *)
Definition falsyString (s : option string) : bool :=
  match s with
  | None => true
  | Some EmptyString => true
  | Some _ => false
  end.

(** [a || Infinity] *)
Definition orInfinity (z : Z) : JsNum := if truthy z then Num z else Infinity.

(** [arr.slice(0, stop)]: a negative [stop] counts from the end. *)
Definition slice0 {A : Type} (arr : list A) (stop : JsNum) : list A :=
  match stop with
  | Infinity => arr
  | Num k =>
      if k <? 0 then firstn (Z.to_nat (Z.max (Z.of_nat (length arr) + k) 0)) arr
      else firstn (Z.to_nat k) arr
  end.

(** [Array.prototype.sort(cmp)].  The language requires the sort to be
    stable; insertion from the right is the plainest stable sort: [x]
    goes in front of the first element it does not have to follow.  For
    the comparator of the program the result does not depend on the
    algorithm ([sortBy_unique] below). *)
Fixpoint insertBy {A : Type} (cmp : A -> A -> Z) (x : A) (l : list A) : list A :=
  match l with
  | [] => [x]
  | y :: l' => if cmp x y >? 0 then y :: insertBy cmp x l' else x :: l
  end.

Definition sortBy {A : Type} (cmp : A -> A -> Z) (l : list A) : list A :=
  fold_right (insertBy cmp) [] l.

(** The names every plain object inherits from [Object.prototype]. *)
Definition objectPrototypeMembers : list string :=
  [ "constructor"; "hasOwnProperty"; "isPrototypeOf"; "propertyIsEnumerable";
    "toLocaleString"; "toString"; "valueOf"; "__proto__";
    "__defineGetter__"; "__defineSetter__"; "__lookupGetter__";
    "__lookupSetter__" ]%string.

(** [Object.fromEntries(docs)]: later entries overwrite earlier ones. *)
Definition fromEntries (docs : list (string * Z)) : gmap string Z :=
  fold_left (fun o kv => <[kv.1 := kv.2]> o) docs ∅.

(** [o[key]] on an object made by [fromEntries]: the own property when
    there is one, otherwise what the prototype has under that name. *)
Definition getProperty (o : gmap string Z) (key : string) : JsValue :=
  match o !! key with
  | Some v => JsNumber v
  | None =>
      if existsb (String.eqb key) objectPrototypeMembers
      then JsInherited key else JsUndefined
  end.

(** [v ?? d] *)
Definition nullish (v d : JsValue) : JsValue :=
  match v with
  | JsUndefined => d
  | _ => v
  end.

(** ** Aggregator: [accumulateStats] (index.ts 301-306) *)

Fixpoint accumulateStats (result : Results) : Z :=
  fold_left (fun a b => a + accumulateStats b) (children result) 0
  + downloads result.

(** The comparator of both sorts, [(a, b) => b.downloads - a.downloads]. *)
Definition byDownloads (a b : Results) : Z := downloads b - downloads a.

(** [packageInfo.dist?.size ?? 0] *)
Definition distSize (packageInfo : NpmPackageInfo) : Z :=
  match info_dist packageInfo with
  | Some d => size d
  | None => 0
  end.

(** The body of the [forEach] of the accumulation pass (index.ts
    385-389) on one node.  Every node of [topResults] is an object of its
    own, so updating them one after the other is a [map]. *)
Definition accumulateNode (packageInfo : NpmPackageInfo) (result : Results) : Results :=
  let downloads' := accumulateStats result in
  {| name := name result;
     downloads := downloads';
     traffic := downloads' * distSize packageInfo;
     isDevDependency := isDevDependency result;
     children := [];
     version := version result |}.

(** The accumulation pass (index.ts 384-392). *)
Definition accumulatePass (packageInfo : NpmPackageInfo) (topResults : list Results)
  : list Results :=
  sortBy byDownloads (map (accumulateNode packageInfo) topResults).

(** ** What a run does and how it ends *)

(** What [console.log] is given: a text, an object (which the console
    shows through its inspector, as [{ name: '...', version: '...' }]), or
    a table row, recorded with its data because the number formatting is
    not modelled. *)
Inductive Printed : Type :=
| Text (text : string)
| Inspected (value : DependentValue)
| FormattedRow (index : Z) (pkg : Results) (dev : bool).

(** The observable steps of a run, in program order. *)
Inductive Event : Type :=
| FetchPackageInfo (packageName : string) (version : string)
| FetchDependents (packageName : string) (dev : bool)
| FetchDownloadStats (packageNames : list string)
| ConsoleError (message : string)
| ConsoleLog (what : Printed)
| WriteFile (path : string) (results : list Results).

(** The ways a call stops without returning.  [Exit None] is
    [process.exit()] with no argument; [Throw] is an exception that nothing
    catches before the final [.catch(console.error)]; [IllTyped] marks the
    point where a value leaves the types that the source declares (a
    download count that is not a number, children that are [undefined]):
    the run is not followed further; [OutOfFuel] belongs to the model. *)
Inductive Abort : Type :=
| Exit (code : option Z)
| Throw (message : string)
| IllTyped (what : string)
| OutOfFuel.

Inductive Outcome (A : Type) : Type :=
| Done (a : A)
| Stopped (why : Abort).
Arguments Done {A}.
Arguments Stopped {A}.

(** The status the operating system sees after [process.exit(code)]: the
    program never assigns [process.exitCode], so a missing [code] is [0]. *)
Definition exitStatus (code : option Z) : Z :=
  match code with
  | Some c => c
  | None => 0
  end.

Module Run.

Definition M (A : Type) : Type := list Event * Outcome A.

Definition ret {A : Type} (a : A) : M A := ([], Done a).

Definition stop {A : Type} (why : Abort) : M A := ([], Stopped why).

Definition emit (e : Event) : M unit := ([e], Done tt).

Definition bind {A B : Type} (m : M A) (k : A -> M B) : M B :=
  match m with
  | (ev, Done a) => let (ev', r) := k a in ((ev ++ ev')%list, r)
  | (ev, Stopped why) => (ev, Stopped why)
  end.

(** [arr.forEach(f)] and [Promise.all(arr.map(f))], one element after the
    other, left to right.  The calls under [Promise.all] are interleaved
    in the source; what each returns does not depend on the schedule, and
    the order in which their events are listed here is one of the possible
    ones.  When one of them stops, the events of the later ones are not
    listed. *)
Fixpoint mapM {A B : Type} (f : A -> M B) (l : list A) : M (list B) :=
  match l with
  | [] => ret []
  | x :: l' => bind (f x) (fun y => bind (mapM f l') (fun ys => ret (y :: ys)))
  end.

Definition events {A : Type} (m : M A) : list Event := fst m.
Definition outcome {A : Type} (m : M A) : Outcome A := snd m.

End Run.

Import Run.

Notation "x <- m ;; k" := (bind m (fun x => k))
  (at level 100, m at next level, right associativity).
Notation "m ;;; k" := (bind m (fun _ => k))
  (at level 100, k at level 200, right associativity).

(** ** The program *)

Section Program.

(** The parsed command line, a global of the source. *)
Variable argv : Args.

(** The registry: what [GET {base}/{name}/{version}] answers; [None] is
    a response that is not ok or a transport error. *)
Variable registry : string -> string -> option NpmPackageInfo.

(** The dependents views, by package name and by [dev]; [None] is a
    response that is not ok. *)
Variable dependentsView : string -> bool -> option DependentsResponse.

(** The downloads view, by the list of keys; [None] is a response that
    is not ok. *)
Variable downloadsView : list string -> option (list (Row Z)).

(** [semver.satisfies(version, range)] of the semver package. *)
Variable semver_satisfies : string -> string -> bool.

(** [fetchPackageInfo] (index.ts 137-152): every failure becomes [null]. *)
Definition fetchPackageInfo (packageName : string) (version : option string)
  : M (option NpmPackageInfo) :=
  let version := match version with Some v => v | None => "latest" end in
  emit (FetchPackageInfo packageName version) ;;;
  ret (registry packageName version).

(** [fetchDependents] (index.ts 154-181): rows of the dev view carry a
    bare string and are given the shape of the other view. *)
Definition fetchDependents (packageName : string) (dev : bool)
  : M (list (Row DependentValue)) :=
  emit (FetchDependents packageName dev) ;;;
  match dependentsView packageName dev with
  | None => stop (Throw "HTTP error!")
  | Some (DevResponse rows) =>
      ret (map (fun p => {| row_id := row_id p; row_key := row_key p;
                            row_value := {| dep_name := row_id p;
                                            dep_version := "" |} |}) rows)
  | Some (ProdResponse rows) => ret rows
  end.

(** [fetchDownloadStats] (index.ts 183-204) *)
Definition fetchDownloadStats (packageNames : list string) : M (gmap string Z) :=
  emit (FetchDownloadStats packageNames) ;;;
  match downloadsView packageNames with
  | None => stop (Throw "HTTP error!")
  | Some rows => ret (fromEntries (map (fun row => (row_key row, row_value row)) rows))
  end.

(** [filterExcludes] (index.ts 308-309) *)
Definition filterExcludes (pkg : Results) : bool :=
  match arg_exclude argv with
  | Some exclude =>
      forallb (fun ex => negb (includes (name pkg) ex)) (split exclude ","%char)
  | None => true
  end.

(** The rows [printOutput] shows (index.ts 240-243). *)
Definition displayed (results : list Results) : list Results :=
  slice0
    (slice0 (List.filter filterExcludes results) (Num (arg_number argv)))
    (if truthy (arg_depths argv) then orInfinity (arg_recursive argv)
     else Infinity).

Definition newline : string := String (Ascii.ascii_of_nat 10) EmptyString.

(** The header lines of the table (index.ts 263-277). *)
Definition tableHeader (dev : bool) : string :=
  if negb dev then
    "| # | Downloads/month | Traffic | Version | Package |" +:+ newline +:+
    "|---|-----------------|---------|---------|---------|"
  else
    "| # | Downloads/month | Package |" +:+ newline +:+
    "|---|-----------------|---------|".

(** [results.forEach((pkg, index) => ...)] (index.ts 279-298) *)
Fixpoint printRows (index : Z) (results : list Results) (dev : bool) : M unit :=
  match results with
  | [] => ret tt
  | pkg :: rest =>
      emit (ConsoleLog (FormattedRow (index + 1) pkg dev)) ;;;
      printRows (index + 1) rest dev
  end.

(** [printOutput] (index.ts 239-299) *)
Definition printOutput (results : list Results) (dev : bool) : M unit :=
  let results := displayed results in
  emit (ConsoleLog (Text (tableHeader dev))) ;;;
  printRows 0 results dev.

(** The nodes chosen for expansion (index.ts 365-367). *)
Definition recursionSelection (results : list Results) : list Results :=
  slice0 (List.filter filterExcludes results) (Num (arg_recursive argv)).

(** [downloadStats[dep.value.name] ?? 0] (index.ts 347) *)
Definition joinDownloads (downloadStats : gmap string Z) (dep : Row DependentValue)
  : JsValue :=
  nullish (getProperty downloadStats (dep_name (row_value dep))) (JsNumber 0).

(** The callback of [dependents.map] (index.ts 346-358).  [Results]
    holds numbers; a run in which the join gives something else stops as
    [IllTyped] and is not followed further, while the program goes on
    with a download count that is not a number.  The join gives a number
    for every dependent when the names are plain ([plainNames] below). *)
Definition score (downloadStats : gmap string Z) (packageInfo : NpmPackageInfo)
    (dep : Row DependentValue) : M Results :=
  match joinDownloads downloadStats dep with
  | JsNumber downloads =>
      ret {| name := dep_name (row_value dep);
             version := dep_version (row_value dep);
             downloads := downloads;
             traffic := downloads * distSize packageInfo;
             isDevDependency := arg_dev argv;
             children := [] |}
  | _ => stop (IllTyped "downloads")
  end.

(** [r.children = recursiveResults] *)
Definition setChildren (r : Results) (recursiveResults : list Results) : Results :=
  {| name := name r; downloads := downloads r; traffic := traffic r;
     isDevDependency := isDevDependency r; children := recursiveResults;
     version := version r |}.

(** The array [results] after the recursion: the nodes of [topResults]
    are the first nodes of [results] that pass [filterExcludes], and they
    are the same objects, so [results] sees their new [children]. *)
Fixpoint writeBack (results topResults : list Results) : list Results :=
  match results, topResults with
  | r :: rs, t :: ts =>
      if filterExcludes r then t :: writeBack rs ts
      else r :: writeBack rs topResults
  | _, _ => results
  end.

(** The version filter (index.ts 328-333): nothing is dropped when no
    version was given. *)
Definition versionFilter (version : option string) (actualVersion : string)
    (dependentsWithVersion : list (Row DependentValue))
  : list (Row DependentValue) :=
  List.filter
    (fun dependent =>
       falsyString version
       || semver_satisfies actualVersion (dep_version (row_value dependent)))
    dependentsWithVersion.

(** The end of [main] (index.ts 376-394), once [results] and
    [topResults] are known: a call below the configured depth returns
    [topResults]; the call at the configured depth writes the file,
    accumulates and prints.  After a recursion, the file shows [results]
    with the children that the recursion attached. *)
Definition finish (packageInfo : NpmPackageInfo)
    (results topResults : list Results) (depths : Z)
  : M (option (list Results)) :=
  if negb (depths =? arg_depths argv) then ret (Some topResults)
  else
    (match arg_file argv with
     | Some (String c path) =>
         emit (WriteFile (String c path)
                 (if truthy (arg_recursive argv) && truthy depths
                  then writeBack results topResults else results))
     | _ => ret tt
     end) ;;;
    let topResults :=
      if arg_accumulate argv then accumulatePass packageInfo topResults
      else topResults in
    printOutput topResults (arg_dev argv) ;;;
    ret None.

(** [main] (index.ts 311-395).  [fuel] bounds the nesting of the calls;
    a call that needs more ends as [OutOfFuel]. *)
Fixpoint main (fuel : nat) (inputPackage : string) (depths : Z)
  : M (option (list Results)) :=
  match fuel with
  | O => stop OutOfFuel
  | S fuel' =>
    let (packageName, version) := getPackageNameAndVersion inputPackage in
    packageInfo <- fetchPackageInfo packageName version ;;
    match packageInfo with
    | None =>
        emit (ConsoleError ("Failed to fetch package info for " +:+ packageName)) ;;;
        if truthy (arg_recursive argv) && negb (arg_depths argv =? depths)
        then ret (Some [])
        else stop (Exit None)
    | Some packageInfo =>
        let actualVersion := info_version packageInfo in
        dependentsWithVersion <- fetchDependents packageName (arg_dev argv) ;;
        let dependents :=
          versionFilter version actualVersion dependentsWithVersion in
        if arg_list argv then
          mapM (fun d => emit (ConsoleLog (Inspected (row_value d)))) dependents ;;;
          ret None
        else
          downloadStats <-
            fetchDownloadStats (map (fun p => dep_name (row_value p)) dependents) ;;
          results <- mapM (score downloadStats packageInfo) dependents ;;
          let results := sortBy byDownloads results in
          topResults <-
            (if truthy (arg_recursive argv) && truthy depths then
               mapM
                 (fun r =>
                    recursiveResults <- main fuel' (name r) (depths - 1) ;;
                    match recursiveResults with
                    | Some recursiveResults => ret (setChildren r recursiveResults)
                    | None => stop (IllTyped "children")
                    end)
                 (recursionSelection results)
             else ret results) ;;
          finish packageInfo results topResults depths
    end
  end.

End Program.

(** ** Vocabulary of the statements *)

(** The sum of a list of integers. *)
Definition sumZ (l : list Z) : Z := fold_right Z.add 0 l.

(** [a] may stand in front of [b] in a list sorted by downloads,
    largest first. *)
Definition downloadsGe (a b : Results) : Prop := downloads b <= downloads a.

(** A list of nodes is sorted by downloads, largest first. *)
Definition sortedByDownloads (l : list Results) : Prop :=
  StronglySorted downloadsGe l.

(** The nodes of [l] with [d] downloads, in the order of [l]. *)
Definition withDownloads (d : Z) (l : list Results) : list Results :=
  List.filter (fun r => downloads r =? d) l.

(** A node without children. *)
Definition leaf (n : string) (d : Z) : Results :=
  {| name := n; downloads := d; traffic := 0; isDevDependency := false;
     children := []; version := "" |}.

(** The rows of a table, numbered from [index + 1]. *)
Fixpoint tableRows (index : Z) (rows : list Results) (dev : bool) : list Event :=
  match rows with
  | [] => []
  | pkg :: rest =>
      ConsoleLog (FormattedRow (index + 1) pkg dev)
      :: tableRows (index + 1) rest dev
  end.

(** The command line [argv] with the accumulate flag set to [b]. *)
Definition withAccumulate (argv : Args) (b : bool) : Args :=
  {| arg_pkg := arg_pkg argv; arg_number := arg_number argv;
     arg_file := arg_file argv; arg_exclude := arg_exclude argv;
     arg_dev := arg_dev argv; arg_list := arg_list argv;
     arg_recursive := arg_recursive argv; arg_depths := arg_depths argv;
     arg_accumulate := b |}.

Section TreeBuilder.

Variable argv : Args.
Variable registry : string -> string -> option NpmPackageInfo.
Variable dependentsView : string -> bool -> option DependentsResponse.
Variable downloadsView : list string -> option (list (Row Z)).
Variable semver_satisfies : string -> string -> bool.

(** [treeBuilt fuel inputPackage depths info dependents scored topResults]:
    in the call [main inputPackage depths] the package resolves to [info],
    [dependents] are its dependents after the version filter, in the order
    of the response, [scored] are their nodes in that order, and
    [topResults] is the value of the variable of that name at index.ts
    376: the sorted nodes, or, when the call recurses, the selected ones,
    each with the list its own call returned as children. *)
Definition treeBuilt (fuel : nat) (inputPackage : string) (depths : Z)
    (info : NpmPackageInfo) (dependents : list (Row DependentValue))
    (scored topResults : list Results) : Prop :=
  exists packageName version dependentsWithVersion rows,
    getPackageNameAndVersion inputPackage = (packageName, version) /\
    registry packageName (default "latest" version) = Some info /\
    fetchDependents dependentsView packageName (arg_dev argv)
      = ([FetchDependents packageName (arg_dev argv)],
         Done dependentsWithVersion) /\
    dependents
      = versionFilter semver_satisfies version (info_version info)
          dependentsWithVersion /\
    downloadsView (map (fun p => dep_name (row_value p)) dependents)
      = Some rows /\
    Forall2
      (fun dep r =>
         score argv
           (fromEntries (map (fun row => (row_key row, row_value row)) rows))
           info dep = ret r)
      dependents scored /\
    if truthy (arg_recursive argv) && truthy depths then
      Forall2
        (fun r t => exists e c,
             main argv registry dependentsView downloadsView semver_satisfies
               fuel (name r) (depths - 1) = (e, Done (Some c)) /\
             t = setChildren r c)
        (recursionSelection argv (sortBy byDownloads scored)) topResults
    else topResults = sortBy byDownloads scored.

End TreeBuilder.

(** ** More vocabulary *)

(** The number of levels of children below a node. *)
Fixpoint height (r : Results) : nat :=
  fold_right (fun c h => Nat.max (S (height c)) h) 0%nat (children r).

(** A node and all the nodes below it. *)
Fixpoint flatten (r : Results) : list Results :=
  r :: flat_map flatten (children r).

(** A request to one of the three services. *)
Definition isRequest (e : Event) : bool :=
  match e with
  | FetchPackageInfo _ _ | FetchDependents _ _ | FetchDownloadStats _ => true
  | _ => false
  end.

(** Something written to the standard output or to the file. *)
Definition isOutput (e : Event) : bool :=
  match e with
  | ConsoleLog _ | WriteFile _ _ => true
  | _ => false
  end.

(** The number of calls of a full tree of calls: one call, and [width]
    trees of one level less below it. *)
Fixpoint fanOut (width depth : nat) : nat :=
  match depth with
  | O => 1
  | S d => 1 + width * fanOut width d
  end.

(** What the registry answers for the token of a call (index.ts
    312-314). *)
Definition resolved (registry : string -> string -> option NpmPackageInfo)
    (inputPackage : string) : option NpmPackageInfo :=
  let (packageName, version) := getPackageNameAndVersion inputPackage in
  registry packageName (default "latest" version).

(** [scoredUnder registry inputPackage t]: the traffic of [t] is its
    downloads times the size of the package that the call for
    [inputPackage] resolved, and the same holds for every child of [t]
    with respect to the call for the name of [t]. *)
Fixpoint scoredUnder (registry : string -> string -> option NpmPackageInfo)
    (inputPackage : string) (t : Results) : Prop :=
  (exists info,
      resolved registry inputPackage = Some info /\
      traffic t = downloads t * distSize info) /\
  fold_right (fun c P => scoredUnder registry (name t) c /\ P) True (children t).

(** The nodes that an event shows: the row of a table row, the list
    written to the file. *)
Definition nodesOf (e : Event) : list Results :=
  match e with
  | ConsoleLog (FormattedRow _ pkg _) => [pkg]
  | WriteFile _ results => results
  | _ => []
  end.

(** [t] is the node [r], but for its children. *)
Definition sameScore (r t : Results) : Prop :=
  name t = name r /\ downloads t = downloads r /\ traffic t = traffic r /\
  version t = version r /\ isDevDependency t = isDevDependency r.

(** The event of the file write of [main] (index.ts 380-382), if there
    is one: the option is a path that is not empty. *)
Definition writtenFile (argv : Args) (results topResults : list Results)
    (depths : Z) : list Event :=
  match arg_file argv with
  | Some (String c path) =>
      [WriteFile (String c path)
         (if truthy (arg_recursive argv) && truthy depths
          then writeBack argv results topResults else results)]
  | _ => []
  end.

(** The value of the last entry of [docs] with the key [key]. *)
Definition lastValue (docs : list (string * Z)) (key : string) : option Z :=
  fold_left
    (fun found kv => if String.eqb (fst kv) key then Some (snd kv) else found)
    docs None.

(** The entries that [fetchDownloadStats] makes of the rows of a response
    (index.ts 201). *)
Definition entriesOf (rows : list (Row Z)) : list (string * Z) :=
  map (fun row => (row_key row, row_value row)) rows.

(** ** The cells of the table (index.ts 245-287) *)

(** One decimal digit. *)
Definition digit (d : nat) : string :=
  String (Ascii.ascii_of_nat (48 + d)) EmptyString.

Fixpoint decimalFuel (fuel n : nat) : string :=
  match fuel with
  | O => EmptyString
  | S fuel' =>
      if (n <? 10)%nat then digit n
      else decimalFuel fuel' (n / 10) +:+ digit (n mod 10)
  end.

(** [n.toString()] and [`${n}`] for a natural number. *)
Definition decimal (n : nat) : string := decimalFuel (S n) n.

Fixpoint spaces (n : nat) : string :=
  match n with
  | O => EmptyString
  | S n' => String " "%char (spaces n')
  end.

(** [s.padEnd(n)] and [s.padStart(n)]: spaces up to the length [n]. *)
Definition padEnd (s : string) (n : nat) : string :=
  s +:+ spaces (n - String.length s).

Definition padStart (s : string) (n : nat) : string :=
  spaces (n - String.length s) +:+ s.

(** [cells.reduce((a, b) => Math.max(a, b.length), 0)] *)
Definition maxLength (cells : list string) : nat :=
  fold_left (fun a b => Nat.max a (String.length b)) cells 0%nat.

(** The four padded strings of a row. *)
Record Cells : Type := mkCells {
  indexStr : string;
  downloadsStr : string;
  trafficStr : string;
  versionStr : string
}.

Section Table.

(** [formatDownloads] and [formatTraffic] (index.ts 121-135) print a
    quotient with [toFixed(2)]; they are taken as they are. *)
Variable formatDownloads : Z -> string.
Variable formatTraffic : Z -> string.

Definition maxIndexWidth (results : list Results) : nat :=
  String.length (decimal (length results)).

Definition maxDownloadsWidth (results : list Results) : nat :=
  maxLength (map (fun p => formatDownloads (downloads p)) results).

Definition maxTrafficWidth (results : list Results) : nat :=
  maxLength (map (fun p => formatTraffic (traffic p)) results).

Definition maxVersionWidth (results : list Results) : nat :=
  Nat.min
    (fold_left (fun a b => Nat.max a (String.length (version b))) results 0%nat)
    24.

(** The cells of the row of [pkg], the row number [index] (from 0) of
    the displayed list [results] (index.ts 279-287). *)
Definition cellsOf (results : list Results) (index : nat) (pkg : Results)
  : Cells :=
  {| indexStr := padEnd (decimal (index + 1)) (maxIndexWidth results);
     downloadsStr :=
       padStart (formatDownloads (downloads pkg)) (maxDownloadsWidth results);
     trafficStr :=
       if truthy (traffic pkg)
       then padStart (formatTraffic (traffic pkg)) (maxTrafficWidth results)
       else padStart EmptyString (maxTrafficWidth results);
     versionStr :=
       padEnd (slice (version pkg) 0 24) (maxVersionWidth results) |}.

End Table.

(** ** Dependents with plain names *)

(** The names of the dependents in a response of the dependents views,
    as [fetchDependents] reads them (index.ts 168-180). *)
Definition dependentNames (response : DependentsResponse) : list string :=
  match response with
  | DevResponse rows => map row_id rows
  | ProdResponse rows => map (fun p => dep_name (row_value p)) rows
  end.

(** No dependent has a name that every object inherits from
    [Object.prototype].  The join of index.ts 347 then finds a number for
    every dependent, its count or 0, as the type [Results] says, and the
    sort of line 360 compares numbers.  A run with another dependent is
    one of those of the defect of line 347, where a download count is not
    a number. *)
Definition plainNames
    (dependentsView : string -> bool -> option DependentsResponse) : Prop :=
  forall (packageName : string) (dev : bool) (response : DependentsResponse),
    dependentsView packageName dev = Some response ->
    Forall (fun n => ~ In n objectPrototypeMembers) (dependentNames response).

(** ** The last statements of the module *)

(** The statements after [main] (index.ts 397-404), with the events of
    the run and the status the process ends with.  A missing package name
    is reported and ends the process with status 1.  Otherwise [main] is
    called with the configured depth: [process.exit(code)] ends the process
    with the status of [code]; an exception rejects the promise of [main],
    [.catch(console.error)] prints it, and the process ends normally, as it
    does when [main] returns.  Where a value has left the declared types
    the run is not followed, and there is no status. *)
Definition entry (argv : Args)
    (registry : string -> string -> option NpmPackageInfo)
    (dependentsView : string -> bool -> option DependentsResponse)
    (downloadsView : list string -> option (list (Row Z)))
    (semver_satisfies : string -> string -> bool) (fuel : nat)
  : list Event * option Z :=
  match arg_pkg argv with
  | EmptyString =>
      ([ConsoleError "Please provide a package name as the first argument."],
       Some 1)
  | inputPackage =>
      let (ev, r) :=
        main argv registry dependentsView downloadsView semver_satisfies
          fuel inputPackage (arg_depths argv) in
      match r with
      | Done _ => (ev, Some 0)
      | Stopped (Exit code) => (ev, Some (exitStatus code))
      | Stopped (Throw message) => ((ev ++ [ConsoleError message])%list, Some 0)
      | Stopped (IllTyped _) => (ev, None)
      | Stopped OutOfFuel => (ev, None)
      end
  end.

(** ** The progress bar of getDependents.ts *)

Fixpoint repeatTimes (s : string) (n : nat) : string :=
  match n with
  | O => EmptyString
  | S n' => s +:+ repeatTimes s n'
  end.

(** [s.repeat(count)] for a count that was truncated to an integer: a
    negative count is a [RangeError]. *)
Definition repeatString (s : string) (count : Z) : option string :=
  if count <? 0 then None else Some (repeatTimes s (Z.to_nat count)).

(** The bar that [showProgress] (getDependents.ts 294-303) writes for a
    percentage, the integer that [Math.min(Math.round(...), 100)] gave.
    The counts [percentage / 5] and [20 - percentage / 5] are fractions
    with the denominator 5, here [percentage / 5] and
    [(100 - percentage) / 5]; [repeat] truncates its count toward 0, which
    is [Z.quot]. *)
Definition progressBar (percentage : Z) : option string :=
  match repeatString "=" (Z.quot percentage 5),
        repeatString " " (Z.quot (100 - percentage) 5) with
  | Some filled, Some blank => Some ("[" +:+ filled +:+ blank +:+ "]")
  | _, _ => None
  end.

(** ** Sample inputs *)

Module Sample.

(** The command line [e18e-tools left-pad], with the defaults of the
    option table (index.ts 26-44). *)
Definition argv : Args :=
  {| arg_pkg := "left-pad"; arg_number := 200; arg_file := None;
     arg_exclude := None; arg_dev := false; arg_list := false;
     arg_recursive := 3; arg_depths := 0; arg_accumulate := false |}.

Definition withList (a : Args) : Args :=
  {| arg_pkg := arg_pkg a; arg_number := arg_number a;
     arg_file := arg_file a; arg_exclude := arg_exclude a;
     arg_dev := arg_dev a; arg_list := true;
     arg_recursive := arg_recursive a; arg_depths := arg_depths a;
     arg_accumulate := arg_accumulate a |}.

Definition withExclude (a : Args) (exclude : string) : Args :=
  {| arg_pkg := arg_pkg a; arg_number := arg_number a;
     arg_file := arg_file a; arg_exclude := Some exclude;
     arg_dev := arg_dev a; arg_list := arg_list a;
     arg_recursive := arg_recursive a; arg_depths := arg_depths a;
     arg_accumulate := arg_accumulate a |}.

Definition withDepths (a : Args) (depths : Z) : Args :=
  {| arg_pkg := arg_pkg a; arg_number := arg_number a;
     arg_file := arg_file a; arg_exclude := arg_exclude a;
     arg_dev := arg_dev a; arg_list := arg_list a;
     arg_recursive := arg_recursive a; arg_depths := depths;
     arg_accumulate := arg_accumulate a |}.


(** A registry that knows every package but ["ghost"]; each package is
    1000 bytes. *)
Definition registry (packageName version : string) : option NpmPackageInfo :=
  if String.eqb packageName "ghost" then None
  else Some {| info_name := packageName; info_version := "1.3.0";
               info_homepage := None;
               info_dist := Some {| tarball := ""; size := 1000 |} |}.

Definition dependent (key n range : string) : Row DependentValue :=
  {| row_id := n; row_key := key;
     row_value := {| dep_name := n; dep_version := range |} |}.

(** ["left-pad"] has four dependents, ["b"] has two, nothing else has any. *)
Definition dependentsView (packageName : string) (dev : bool)
  : option DependentsResponse :=
  if String.eqb packageName "left-pad" then
    Some (ProdResponse [dependent "left-pad" "a" "^1.0.0";
                        dependent "left-pad" "b" "^1.2.0";
                        dependent "left-pad" "c" "~1.3.0";
                        dependent "left-pad" "d" "*"])
  else if String.eqb packageName "b" then
    Some (ProdResponse [dependent "b" "ghost" "^1.0.0";
                        dependent "b" "e" "^1.0.0"])
  else Some (ProdResponse []).

Definition stat (n : string) (d : Z) : Row Z :=
  {| row_id := n; row_key := n; row_value := d |}.

(** The downloads view has no row for ["ghost"]. *)
Definition downloadsView (packageNames : list string) : option (list (Row Z)) :=
  Some (List.filter (fun row => existsb (String.eqb (row_key row)) packageNames)
          [stat "a" 5; stat "b" 100; stat "c" 5; stat "d" 20; stat "e" 7]).

Definition semver_satisfies (version range : string) : bool := true.

(** A scored dependent of a sample package. *)
Definition node (n range : string) (d : Z) (c : list Results) : Results :=
  {| name := n; downloads := d; traffic := d * 1000;
     isDevDependency := false; children := c; version := range |}.

(** What the call for ["left-pad"] at depth 0 returns when the
    configured depth is 1. *)
Definition ranking : list Results :=
  [node "b" "^1.2.0" 100 []; node "d" "*" 20 [];
   node "a" "^1.0.0" 5 []; node "c" "~1.3.0" 5 []].

(** The command line [e18e-tools left-pad -d 1], and the same with
    [-a], and with [-n 2 -r 5]. *)
Definition recursing : Args := withDepths argv 1.
Definition accumulating : Args := withAccumulate recursing true.

(** A run of the program in the sample world. *)
Definition run (a : Args) (fuel : nat) (inputPackage : string) (depths : Z)
  : M (option (list Results)) :=
  main a registry dependentsView downloadsView semver_satisfies
    fuel inputPackage depths.

(** Six nodes, for the truncation example. *)
Definition six : list Results :=
  [leaf "p1" 60; leaf "p2" 50; leaf "p3" 40; leaf "p4" 30; leaf "p5" 20;
   leaf "p6" 10].

Definition withFile (a : Args) (path : string) : Args :=
  {| arg_pkg := arg_pkg a; arg_number := arg_number a;
     arg_file := Some path; arg_exclude := arg_exclude a;
     arg_dev := arg_dev a; arg_list := arg_list a;
     arg_recursive := arg_recursive a; arg_depths := arg_depths a;
     arg_accumulate := arg_accumulate a |}.

(** The command line [e18e-tools left-pad -d 1 -f out.json]. *)
Definition filed : Args := withFile recursing "out.json".

Definition withPkg (a : Args) (pkg : string) : Args :=
  {| arg_pkg := pkg; arg_number := arg_number a;
     arg_file := arg_file a; arg_exclude := arg_exclude a;
     arg_dev := arg_dev a; arg_list := arg_list a;
     arg_recursive := arg_recursive a; arg_depths := arg_depths a;
     arg_accumulate := arg_accumulate a |}.

(** What the sample registry answers for a package it knows. *)
Definition info (packageName : string) : NpmPackageInfo :=
  {| info_name := packageName; info_version := "1.3.0";
     info_homepage := None;
     info_dist := Some {| tarball := ""; size := 1000 |} |}.

(** The dependents views when the request for ["b"] is refused. *)
Definition refusingView (packageName : string) (dev : bool)
  : option DependentsResponse :=
  if String.eqb packageName "b" then None
  else dependentsView packageName dev.

End Sample.

(** * Facts *)

(** ** The run monad *)

Lemma bind_Done_inv {A B : Type} (m : M A) (k : A -> M B) ev b :
  bind m k = (ev, Done b) ->
  exists ev1 a ev2,
    m = (ev1, Done a) /\ k a = (ev2, Done b) /\ ev = (ev1 ++ ev2)%list.
Proof.
  destruct m as [ev1 [a | why]]; simpl; [| discriminate].
  destruct (k a) as [ev2 r] eqn:Hk. intros H. inversion H; subst.
  exists ev1, a, ev2. auto.
Qed.



Lemma mapM_Done_inv {A B : Type} (f : A -> M B) (l : list A) ev ys :
  mapM f l = (ev, Done ys) ->
  Forall2 (fun x y => exists e, f x = (e, Done y)) l ys.
Proof.
  revert ev ys. induction l as [| x l IH]; simpl; intros ev ys H.
  - inversion H. constructor.
  - apply bind_Done_inv in H as (ev1 & y & ev2 & Hx & H & _).
    apply bind_Done_inv in H as (ev3 & ys' & ev4 & Hl & H & _).
    inversion H; subst. constructor; eauto.
Qed.

(** ** The stable sort *)

Section Sorting.

Context {A : Type} (cmp : A -> A -> Z).

Lemma insertBy_Permutation (x : A) (l : list A) :
  Permutation (insertBy cmp x l) (x :: l).
Proof.
  induction l as [| y l IH]; simpl; [reflexivity |].
  destruct (cmp x y >? 0); [| reflexivity].
  rewrite IH. apply perm_swap.
Qed.

Lemma sortBy_Permutation (l : list A) : Permutation (sortBy cmp l) l.
Proof.
  induction l as [| x l IH]; simpl; [reflexivity |].
  rewrite insertBy_Permutation. constructor. exact IH.
Qed.

Lemma sortBy_Forall (P : A -> Prop) (l : list A) :
  Forall P l -> Forall P (sortBy cmp l).
Proof.
  intros H. eapply Permutation_Forall; [| exact H].
  symmetry. apply sortBy_Permutation.
Qed.

Lemma sortBy_length (l : list A) : length (sortBy cmp l) = length l.
Proof. apply Permutation_length, sortBy_Permutation. Qed.

End Sorting.

Lemma insertBy_sorted (x : Results) (l : list Results) :
  sortedByDownloads l -> sortedByDownloads (insertBy byDownloads x l).
Proof.
  unfold sortedByDownloads, downloadsGe, byDownloads.
  induction 1 as [| y l Hl IH Hy]; simpl.
  - repeat constructor.
  - destruct (downloads y - downloads x >? 0) eqn:E.
    + constructor; [exact IH |].
      eapply Permutation_Forall;
        [symmetry; apply insertBy_Permutation |].
      constructor; [lia | exact Hy].
    + constructor; [constructor; assumption |].
      constructor; [lia |].
      eapply List.Forall_impl; [| exact Hy]. simpl. intros z Hz. lia.
Qed.

Lemma sortBy_sorted (l : list Results) :
  sortedByDownloads (sortBy byDownloads l).
Proof.
  induction l as [| x l IH]; simpl.
  - constructor.
  - apply insertBy_sorted, IH.
Qed.

Lemma insertBy_withDownloads (d : Z) (x : Results) (l : list Results) :
  withDownloads d (insertBy byDownloads x l) = withDownloads d (x :: l).
Proof.
  unfold withDownloads, byDownloads.
  induction l as [| y l IH]; simpl; [reflexivity |].
  destruct (downloads y - downloads x >? 0) eqn:E; [| reflexivity].
  simpl. rewrite IH. simpl.
  destruct (downloads x =? d) eqn:Ex; [| reflexivity].
  destruct (downloads y =? d) eqn:Ey; [lia | reflexivity].
Qed.

Lemma sortBy_stable (d : Z) (l : list Results) :
  withDownloads d (sortBy byDownloads l) = withDownloads d l.
Proof.
  induction l as [| x l IH]; simpl; [reflexivity |].
  rewrite insertBy_withDownloads.
  unfold withDownloads in *. simpl. rewrite IH. reflexivity.
Qed.

Lemma sortBy_sorted_id (l : list Results) :
  sortedByDownloads l -> sortBy byDownloads l = l.
Proof.
  unfold sortedByDownloads, downloadsGe.
  induction 1 as [| x l Hl IH Hx]; simpl; [reflexivity |].
  rewrite IH. destruct l as [| y l']; simpl; [reflexivity |].
  unfold byDownloads. inversion Hx; subst.
  destruct (downloads y - downloads x >? 0) eqn:E; [lia | reflexivity].
Qed.





(** A list sorted by downloads is determined by its groups of equal
    downloads: whatever stable algorithm the engine uses, [sort] with this
    comparator gives the list [sortBy byDownloads] gives. *)
Lemma sorted_groups_unique (l1 l2 : list Results) :
  sortedByDownloads l1 -> sortedByDownloads l2 ->
  (forall d, withDownloads d l1 = withDownloads d l2) ->
  l1 = l2.
Proof.
  unfold sortedByDownloads, downloadsGe, withDownloads.
  intros H1. revert l2.
  induction H1 as [| x l1 Hs1 IH Hx]; intros l2 H2 Hg.
  - destruct l2 as [| y l2]; [reflexivity |].
    specialize (Hg (downloads y)). simpl in Hg.
    rewrite Z.eqb_refl in Hg. discriminate.
  - destruct l2 as [| y l2].
    { specialize (Hg (downloads x)). simpl in Hg.
      rewrite Z.eqb_refl in Hg. discriminate. }
    inversion H2 as [| ? ? Hs2 Hy]; subst.
    rewrite List.Forall_forall in Hx, Hy.
    assert (Hle : downloads y <= downloads x).
    { pose proof (Hg (downloads y)) as E. simpl in E.
      rewrite Z.eqb_refl in E.
      destruct (Z.eqb_spec (downloads x) (downloads y)) as [Exy | Exy]; [lia |].
      apply Hx.
      apply (proj1 (List.filter_In (fun r => downloads r =? downloads y) y l1)).
      rewrite E. left. reflexivity. }
    assert (Hge : downloads x <= downloads y).
    { pose proof (Hg (downloads x)) as E. simpl in E.
      rewrite Z.eqb_refl in E.
      destruct (Z.eqb_spec (downloads y) (downloads x)) as [Exy | Exy]; [lia |].
      apply Hy.
      apply (proj1 (List.filter_In (fun r => downloads r =? downloads x) x l2)).
      rewrite <- E. left. reflexivity. }
    assert (Exy : x = y).
    { pose proof (Hg (downloads x)) as E. simpl in E.
      rewrite Z.eqb_refl in E.
      replace (downloads y =? downloads x) with true in E
        by (symmetry; apply Z.eqb_eq; lia).
      congruence. }
    subst y. f_equal. apply IH; [exact Hs2 |].
    intros d. specialize (Hg d). simpl in Hg.
    destruct (downloads x =? d); congruence.
Qed.

Lemma sortBy_unique (l l' : list Results) :
  sortedByDownloads l' ->
  (forall d, withDownloads d l' = withDownloads d l) ->
  l' = sortBy byDownloads l.
Proof.
  intros Hs Hg. apply sorted_groups_unique; [exact Hs | apply sortBy_sorted |].
  intros d. rewrite sortBy_stable. apply Hg.
Qed.


(** ** Aggregator *)

Lemma fold_left_add_sum {A : Type} (f : A -> Z) (l : list A) (a0 : Z) :
  fold_left (fun a b => a + f b) l a0 = a0 + sumZ (map f l).
Proof.
  revert a0. induction l as [| x l IH]; intros a0; simpl; [lia |].
  rewrite IH. lia.
Qed.

Lemma accumulateStats_unfold (node : Results) :
  accumulateStats node =
  downloads node + sumZ (map accumulateStats (children node)).
Proof.
  destruct node as [n d t dev c v]; simpl.
  rewrite fold_left_add_sum. lia.
Qed.

Lemma accumulateStats_no_children (node : Results) :
  children node = [] -> accumulateStats node = downloads node.
Proof.
  intros H. rewrite accumulateStats_unfold, H. simpl. lia.
Qed.

(** C1. [accumulateStats node] is the downloads of [node] plus the sum
    of [accumulateStats] over the children of [node]; a node with 10
    downloads and two childless children with 3 and 7 downloads gives 20;
    a node without children gives its own downloads. *)
Theorem accumulateStats_sums_subtree :
  (forall node : Results,
      accumulateStats node =
      downloads node + sumZ (map accumulateStats (children node))) /\
  (forall n t dev v n1 t1 dev1 v1 n2 t2 dev2 v2,
      accumulateStats
        (mkResults n 10 t dev
           [mkResults n1 3 t1 dev1 [] v1; mkResults n2 7 t2 dev2 [] v2] v)
      = 20) /\
  (forall n d t dev v, accumulateStats (mkResults n d t dev [] v) = d).
Proof.
  split; [exact accumulateStats_unfold |].
  split; intros.
  - reflexivity.
  - apply accumulateStats_no_children. reflexivity.
Qed.

Lemma accumulateNode_idempotent (info : NpmPackageInfo) (r : Results) :
  accumulateNode info (accumulateNode info r) = accumulateNode info r.
Proof.
  unfold accumulateNode at 1 3.
  rewrite (accumulateStats_no_children (accumulateNode info r)) by reflexivity.
  reflexivity.
Qed.

Lemma map_fixed {A : Type} (f : A -> A) (l : list A) :
  Forall (fun x => f x = x) l -> map f l = l.
Proof.
  induction 1 as [| x l Hx Hl IH]; simpl; [reflexivity |].
  rewrite Hx, IH. reflexivity.
Qed.

Lemma accumulatePass_fixed_nodes (info : NpmPackageInfo) (l : list Results) :
  Forall (fun r => accumulateNode info r = r) (accumulatePass info l).
Proof.
  unfold accumulatePass. apply sortBy_Forall.
  apply List.Forall_forall. intros r Hr.
  apply List.in_map_iff in Hr as (r0 & <- & _).
  apply accumulateNode_idempotent.
Qed.

(** C10. The accumulation pass is idempotent: applying it to its own
    result changes nothing. *)
Theorem accumulatePass_idempotent (info : NpmPackageInfo) (l : list Results) :
  accumulatePass info (accumulatePass info l) = accumulatePass info l.
Proof.
  unfold accumulatePass at 1.
  rewrite (map_fixed _ _ (accumulatePass_fixed_nodes info l)).
  apply sortBy_sorted_id. unfold accumulatePass. apply sortBy_sorted.
Qed.

(** ** Strings *)

Lemma length_append (a b : string) :
  String.length (a +:+ b) = (String.length a + String.length b)%nat.
Proof. induction a as [| x a IH]; simpl; [reflexivity | rewrite IH; reflexivity]. Qed.

Lemma substring_prefix (a r : string) :
  substring 0 (String.length a) (a +:+ r) = a.
Proof.
  induction a as [| x a IH]; simpl.
  - destruct r; reflexivity.
  - rewrite IH. reflexivity.
Qed.

Lemma substring_all (b : string) : substring 0 (String.length b) b = b.
Proof. induction b as [| x b IH]; simpl; [reflexivity | rewrite IH; reflexivity]. Qed.

Lemma substring_suffix (a b : string) (c : ascii) :
  substring (S (String.length a)) (String.length b) (a +:+ String c b) = b.
Proof.
  induction a as [| x a IH]; simpl.
  - apply substring_all.
  - exact IH.
Qed.

Lemma hasChar_last_split (s : string) (c : ascii) :
  hasChar s c = true ->
  exists a b, s = a +:+ String c b /\ hasChar b c = false.
Proof.
  induction s as [| x s IH]; simpl; [discriminate |].
  destruct (hasChar s c) eqn:Hs.
  - intros _. destruct (IH eq_refl) as (a & b & -> & Hb).
    exists (String x a), b. auto.
  - rewrite orb_false_r. intros Hx. apply Ascii.eqb_eq in Hx as ->.
    exists EmptyString, s. auto.
Qed.

Lemma lastIndexOf_from_absent (b : string) (c : ascii) (i last : Z) :
  hasChar b c = false -> lastIndexOf_from b c i last = last.
Proof.
  revert i last. induction b as [| x b IH]; simpl; intros i last H; [reflexivity |].
  apply orb_false_elim in H as [Hx Hb]. rewrite Hx. apply IH, Hb.
Qed.

Lemma lastIndexOf_from_split (a b : string) (c : ascii) (i last : Z) :
  hasChar b c = false ->
  lastIndexOf_from (a +:+ String c b) c i last = i + strlen a.
Proof.
  intros Hb. revert i last. unfold strlen.
  induction a as [| x a IH]; simpl String.length; intros i last.
  - simpl. rewrite Ascii.eqb_refl, lastIndexOf_from_absent by exact Hb. lia.
  - change (String x a +:+ String c b) with (String x (a +:+ String c b)).
    cbn [lastIndexOf_from]. rewrite IH. lia.
Qed.

Lemma lastIndexOf_split (a b : string) (c : ascii) :
  hasChar b c = false -> lastIndexOf (a +:+ String c b) c = strlen a.
Proof.
  intros H. unfold lastIndexOf. rewrite lastIndexOf_from_split by exact H. lia.
Qed.

Lemma slice_before (a b : string) (c : ascii) :
  slice (a +:+ String c b) 0 (strlen a) = a.
Proof.
  unfold slice, relativeIndex, strlen. rewrite length_append. simpl String.length.
  replace (0 <? 0) with false by reflexivity.
  destruct (Z.ltb_spec (Z.of_nat (String.length a)) 0) as [E | E]; [lia |].
  rewrite Z.min_l by lia. rewrite Z.min_l by lia.
  rewrite Z.sub_0_r, Z.max_l by lia.
  rewrite Nat2Z.id. apply substring_prefix.
Qed.

Lemma sliceFrom_after (a b : string) (c : ascii) :
  sliceFrom (a +:+ String c b) (strlen a + 1) = b.
Proof.
  unfold sliceFrom, slice, relativeIndex, strlen.
  rewrite length_append. simpl String.length.
  destruct (Z.ltb_spec (Z.of_nat (String.length a) + 1) 0) as [E1 | E1]; [lia |].
  destruct (Z.ltb_spec (Z.of_nat (String.length a + S (String.length b))) 0) as [E2 | E2]; [lia |].
  rewrite Z.min_l by lia. rewrite Z.min_id.
  replace (Z.to_nat (Z.of_nat (String.length a) + 1)) with (S (String.length a)) by lia.
  replace (Z.to_nat _) with (String.length b) by lia.
  apply substring_suffix.
Qed.

Lemma split_first (s : string) (c : ascii) :
  split s c =
  upTo s c :: match after s c with
              | Some rest => split rest c
              | None => []
              end.
Proof.
  induction s as [| x s IH]; simpl; [reflexivity |].
  destruct (Ascii.eqb x c); [reflexivity |].
  rewrite IH. reflexivity.
Qed.

Lemma prefix_empty (s : string) : String.prefix EmptyString s = true.
Proof. destruct s; reflexivity. Qed.

Lemma includes_empty (s : string) : includes s EmptyString = true.
Proof. destruct s; simpl; rewrite ?prefix_empty; reflexivity. Qed.

Lemma startsWith_at_sign (rest : string) :
  startsWith (String at_sign rest) "@" = true.
Proof. unfold startsWith. simpl. apply prefix_empty. Qed.

(** ** Input parser *)

Lemma parse_scoped_bare (rest : string) :
  hasChar rest at_sign = false ->
  getPackageNameAndVersion (String at_sign rest) = (String at_sign rest, None).
Proof.
  intros H. unfold getPackageNameAndVersion.
  rewrite startsWith_at_sign.
  change (String at_sign rest) with (EmptyString +:+ String at_sign rest) at 1.
  rewrite lastIndexOf_split by exact H. reflexivity.
Qed.

Lemma parse_scoped_versioned (rest : string) :
  hasChar rest at_sign = true ->
  exists name version,
    String at_sign rest = name +:+ String at_sign version /\
    hasChar version at_sign = false /\
    getPackageNameAndVersion (String at_sign rest) = (name, Some version).
Proof.
  intros H.
  destruct (hasChar_last_split (String at_sign rest) at_sign) as (a & b & E & Hb).
  { simpl. reflexivity. }
  exists a, b. split; [exact E |]. split; [exact Hb |].
  unfold getPackageNameAndVersion.
  rewrite startsWith_at_sign.
  rewrite E, lastIndexOf_split by exact Hb.
  destruct a as [| x a].
  - simpl in E. inversion E; subst. congruence.
  - replace (strlen (String x a) =? 0) with false
      by (symmetry; apply Z.eqb_neq; unfold strlen; simpl String.length; lia).
    rewrite slice_before, sliceFrom_after. reflexivity.
Qed.

Lemma parse_unscoped (token : string) :
  startsWith token "@" = false ->
  getPackageNameAndVersion token =
  (upTo token at_sign,
   option_map (fun rest => upTo rest at_sign) (after token at_sign)).
Proof.
  intros H. unfold getPackageNameAndVersion. rewrite H.
  rewrite split_first. simpl nth. simpl nth_error.
  destruct (after token at_sign) as [rest |]; simpl; [| reflexivity].
  rewrite split_first. reflexivity.
Qed.

(** C6, as amended.  A token that starts with ["@"] and has another
    ["@"] is cut at its last ["@"]: the name is what is before and the
    version what is after.  A token that starts with ["@"] and has no other
    ["@"] is the name, with no version.  For a token that does not start
    with ["@"] the name is what is before the first ["@"] and the version
    is what is between the first ["@"] and the next one (the end of the
    token when there is no next one); without any ["@"] there is no
    version.  The four sample tokens parse as listed. *)
Theorem getPackageNameAndVersion_cases :
  (forall rest : string,
      hasChar rest at_sign = true ->
      exists name version,
        String at_sign rest = name +:+ String at_sign version /\
        hasChar version at_sign = false /\
        getPackageNameAndVersion (String at_sign rest) = (name, Some version)) /\
  (forall rest : string,
      hasChar rest at_sign = false ->
      getPackageNameAndVersion (String at_sign rest) = (String at_sign rest, None)) /\
  (forall token : string,
      startsWith token "@" = false ->
      getPackageNameAndVersion token =
      (upTo token at_sign,
       option_map (fun rest => upTo rest at_sign) (after token at_sign))) /\
  getPackageNameAndVersion "left-pad" = ("left-pad", None) /\
  getPackageNameAndVersion "left-pad@1.2.3" = ("left-pad", Some "1.2.3") /\
  getPackageNameAndVersion "@babel/core@7.0.0" = ("@babel/core", Some "7.0.0") /\
  getPackageNameAndVersion "@babel/core" = ("@babel/core", None).
Proof.
  split; [exact parse_scoped_versioned |].
  split; [exact parse_scoped_bare |].
  split; [exact parse_unscoped |].
  repeat split; reflexivity.
Qed.

Lemma getPackageNameAndVersion_cases_witness :
  (exists name version,
      "@babel/core@7.0.0" = name +:+ String at_sign version /\
      hasChar version at_sign = false /\
      getPackageNameAndVersion "@babel/core@7.0.0" = (name, Some version)) /\
  getPackageNameAndVersion "@babel/core" = ("@babel/core", None) /\
  getPackageNameAndVersion "left-pad@1.2.3" = ("left-pad", Some "1.2.3").
Proof.
  destruct getPackageNameAndVersion_cases as (H1 & H2 & H3 & _).
  split; [apply (H1 "babel/core@7.0.0"); reflexivity |].
  split; [apply (H2 "babel/core"); reflexivity |].
  apply (H3 "left-pad@1.2.3"); reflexivity.
Defined.

(** C6, as stated, fails for a token that does not start with ["@"] and
    has two ["@"]: what is after the first ["@"] is ["1.2.3@next"], and the
    version that is returned is ["1.2.3"]. *)
Lemma getPackageNameAndVersion_two_at_signs :
  startsWith "left-pad@1.2.3@next" "@" = false /\
  splitAtFirstAt "left-pad@1.2.3@next" = ("left-pad", Some "1.2.3@next") /\
  getPackageNameAndVersion "left-pad@1.2.3@next" = ("left-pad", Some "1.2.3") /\
  getPackageNameAndVersion "left-pad@1.2.3@next"
    <> splitAtFirstAt "left-pad@1.2.3@next".
Proof.
  repeat split; try reflexivity. discriminate.
Qed.

(** ** Selection and display *)

Lemma forallb_false_In {A : Type} (f : A -> bool) (l : list A) (x : A) :
  In x l -> f x = false -> forallb f l = false.
Proof.
  induction l as [| y l IH]; simpl; [tauto |].
  intros [-> | H] Hx; [rewrite Hx; reflexivity |].
  rewrite (IH H Hx). apply andb_false_r.
Qed.

Lemma filter_none {A : Type} (f : A -> bool) (l : list A) :
  (forall x, f x = false) -> List.filter f l = [].
Proof.
  intros H. induction l as [| x l IH]; simpl; [reflexivity |].
  rewrite H. exact IH.
Qed.

Lemma slice0_nil {A : Type} (stop : JsNum) : slice0 (@nil A) stop = [].
Proof.
  destruct stop as [k |]; simpl; [| reflexivity].
  destruct (k <? 0); apply firstn_nil.
Qed.

(** C9. When one of the comma-separated entries of the exclude option is
    the empty string (as in ["foo,"] or in the empty option value), the
    exclude filter rejects every node, and both the displayed rows and the
    selection for recursion are empty. *)
Theorem filterExcludes_empty_entry (argv : Args) (exclude : string) :
  arg_exclude argv = Some exclude ->
  In EmptyString (split exclude ","%char) ->
  (forall pkg, filterExcludes argv pkg = false) /\
  (forall results, displayed argv results = []) /\
  (forall results, recursionSelection argv results = []) /\
  In EmptyString (split "foo," ","%char) /\
  In EmptyString (split "" ","%char).
Proof.
  intros Hex Hin.
  assert (Hall : forall pkg, filterExcludes argv pkg = false).
  { intros pkg. unfold filterExcludes. rewrite Hex.
    eapply forallb_false_In; [exact Hin |].
    rewrite includes_empty. reflexivity. }
  split; [exact Hall |].
  split; [| split].
  - intros results. unfold displayed.
    rewrite (filter_none _ _ Hall), !slice0_nil. reflexivity.
  - intros results. unfold recursionSelection.
    rewrite (filter_none _ _ Hall). apply slice0_nil.
  - split; simpl; tauto.
Qed.

Lemma filterExcludes_empty_entry_witness :
  (forall pkg, filterExcludes (Sample.withExclude Sample.argv "foo,") pkg = false) /\
  displayed (Sample.withExclude Sample.argv "foo,") Sample.six = [] /\
  recursionSelection (Sample.withExclude Sample.argv "foo,") Sample.six = [].
Proof.
  destruct (filterExcludes_empty_entry
              (Sample.withExclude Sample.argv "foo,") "foo,")
    as (H1 & H2 & H3 & _).
  - reflexivity.
  - simpl. tauto.
  - split; [exact H1 |]. split; [apply H2 | apply H3].
Defined.

(** ** Resolution failure *)

Section Failure.

Variable argv : Args.
Variable registry : string -> string -> option NpmPackageInfo.
Variable dependentsView : string -> bool -> option DependentsResponse.
Variable downloadsView : list string -> option (list (Row Z)).
Variable semver_satisfies : string -> string -> bool.

Let run := main argv registry dependentsView downloadsView semver_satisfies.

Lemma main_resolution_failure (fuel : nat) (inputPackage : string) (depths : Z)
    (packageName : string) (version : option string) :
  getPackageNameAndVersion inputPackage = (packageName, version) ->
  registry packageName (default "latest" version) = None ->
  run (S fuel) inputPackage depths =
  ([FetchPackageInfo packageName (default "latest" version);
    ConsoleError ("Failed to fetch package info for " +:+ packageName)],
   if truthy (arg_recursive argv) && negb (arg_depths argv =? depths)
   then Done (Some []) else Stopped (Exit None)).
Proof.
  intros Hparse Hreg. unfold run. simpl. rewrite Hparse.
  unfold fetchPackageInfo.
  replace (match version with Some v => v | None => "latest" end)
    with (default "latest" version) by (destruct version; reflexivity).
  rewrite Hreg. simpl.
  destruct (truthy (arg_recursive argv) && negb (arg_depths argv =? depths));
    reflexivity.
Qed.

(** C4.  When the registry does not resolve the package: a call with a
    depth other than the configured one (and a non-zero recursion width)
    returns the empty list; the call at the configured depth reports the
    failure on the error stream and ends the process with
    [process.exit()], whose status is 0. *)
Theorem main_resolution_failure_outcome (fuel : nat) (inputPackage : string)
    (depths : Z) (packageName : string) (version : option string) :
  getPackageNameAndVersion inputPackage = (packageName, version) ->
  registry packageName (default "latest" version) = None ->
  (truthy (arg_recursive argv) = true -> depths <> arg_depths argv ->
   outcome (run (S fuel) inputPackage depths) = Done (Some [])) /\
  (depths = arg_depths argv ->
   outcome (run (S fuel) inputPackage depths) = Stopped (Exit None) /\
   exitStatus None = 0 /\
   events (run (S fuel) inputPackage depths) =
   [FetchPackageInfo packageName (default "latest" version);
    ConsoleError ("Failed to fetch package info for " +:+ packageName)]).
Proof.
  intros Hparse Hreg.
  rewrite (main_resolution_failure fuel inputPackage depths _ _ Hparse Hreg).
  unfold outcome, events. simpl. split.
  - intros Hr Hd. rewrite Hr.
    replace (arg_depths argv =? depths) with false
      by (symmetry; apply Z.eqb_neq; congruence).
    reflexivity.
  - intros ->. rewrite Z.eqb_refl, andb_false_r. auto.
Qed.

End Failure.

Lemma main_resolution_failure_outcome_witness :
  outcome (main Sample.argv Sample.registry Sample.dependentsView
             Sample.downloadsView Sample.semver_satisfies 1 "ghost" 0)
  = Stopped (Exit None) /\
  outcome (main (Sample.withDepths Sample.argv 1) Sample.registry
             Sample.dependentsView Sample.downloadsView
             Sample.semver_satisfies 1 "ghost" 0)
  = Done (Some []).
Proof.
  split.
  - apply (main_resolution_failure_outcome Sample.argv Sample.registry
             Sample.dependentsView Sample.downloadsView
             Sample.semver_satisfies 0 "ghost" 0 "ghost" None);
      reflexivity.
  - apply (main_resolution_failure_outcome (Sample.withDepths Sample.argv 1)
             Sample.registry Sample.dependentsView Sample.downloadsView
             Sample.semver_satisfies 0 "ghost" 0 "ghost" None);
      [reflexivity | reflexivity | reflexivity | discriminate].
Defined.

(** ** Joining the download statistics *)

Lemma inherited_member (key : string) :
  existsb (String.eqb key) objectPrototypeMembers = true <->
  In key objectPrototypeMembers.
Proof.
  rewrite existsb_exists. split.
  - intros (x & Hx & E). apply String.eqb_eq in E as ->. exact Hx.
  - intros H. exists key. split; [exact H | apply String.eqb_refl].
Qed.


(** C7.  For a dependent that has no row in the response and whose name
    is a member of [Object.prototype] (["constructor"], for one), the
    joined value is that inherited member and not the number 0: no node
    with 0 downloads is assembled. *)
Theorem joinDownloads_inherited_member (downloadStats : gmap string Z)
    (dep : Row DependentValue) :
  downloadStats !! dep_name (row_value dep) = None ->
  In (dep_name (row_value dep)) objectPrototypeMembers ->
  joinDownloads downloadStats dep = JsInherited (dep_name (row_value dep)) /\
  joinDownloads downloadStats dep <> JsNumber 0 /\
  forall argv info,
    score argv downloadStats info dep = stop (IllTyped "downloads").
Proof.
  intros Hnone Hmem.
  assert (E : joinDownloads downloadStats dep
              = JsInherited (dep_name (row_value dep))).
  { unfold joinDownloads, getProperty. rewrite Hnone.
    apply inherited_member in Hmem. rewrite Hmem. reflexivity. }
  split; [exact E |]. split; [rewrite E; discriminate |].
  intros argv info. unfold score. rewrite E. reflexivity.
Qed.

Lemma joinDownloads_inherited_member_witness :
  joinDownloads (fromEntries [("left-pad", 7)])
    (Sample.dependent "left-pad" "constructor" "^1.0.0")
  = JsInherited "constructor".
Proof.
  apply (joinDownloads_inherited_member (fromEntries [("left-pad", 7)])
           (Sample.dependent "left-pad" "constructor" "^1.0.0")).
  - vm_compute. reflexivity.
  - simpl. tauto.
Defined.

(** ** Runs of [main] *)

Lemma mapM_emit {A : Type} (e : A -> Event) (l : list A) :
  mapM (fun x => emit (e x)) l = (map e l, Done (map (fun _ => tt) l)).
Proof.
  induction l as [| x l IH]; simpl; [reflexivity |].
  rewrite IH. simpl. rewrite app_nil_r. reflexivity.
Qed.

Lemma fetchDependents_events dependentsView packageName dev ev rows :
  fetchDependents dependentsView packageName dev = (ev, Done rows) ->
  ev = [FetchDependents packageName dev].
Proof.
  unfold fetchDependents. simpl.
  destruct (dependentsView packageName dev) as [[r | r] |]; simpl;
    intros H; inversion H; reflexivity.
Qed.

Lemma score_Done_inv argv downloadStats info dep e r :
  score argv downloadStats info dep = (e, Done r) ->
  score argv downloadStats info dep = ret r /\
  name r = dep_name (row_value dep) /\
  children r = [] /\
  traffic r = downloads r * distSize info /\
  joinDownloads downloadStats dep = JsNumber (downloads r).
Proof.
  unfold score. destruct (joinDownloads downloadStats dep) as [d | |];
    intros H; inversion H; subst; simpl; auto.
Qed.

Lemma fetchDownloadStats_Done_inv downloadsView names e stats :
  fetchDownloadStats downloadsView names = (e, Done stats) ->
  e = [FetchDownloadStats names] /\
  exists rows, downloadsView names = Some rows /\
    stats = fromEntries (map (fun row => (row_key row, row_value row)) rows).
Proof.
  unfold fetchDownloadStats. simpl.
  destruct (downloadsView names) as [rows |]; simpl; intros H;
    inversion H; subst. eauto.
Qed.

(** ** Order of the returned nodes *)

Lemma Forall2_sorted (a b : list Results) :
  Forall2 (fun r t => downloads t = downloads r) a b ->
  sortedByDownloads a -> sortedByDownloads b.
Proof.
  unfold sortedByDownloads, downloadsGe.
  induction 1 as [| r t a b Hrt Hab IH]; intros Hs; [constructor |].
  inversion Hs as [| ? ? Ha Hr]; subst.
  constructor; [apply IH, Ha |].
  clear IH Hs Ha. induction Hab as [| r' t' a b Hrt' Hab IH]; [constructor |].
  inversion Hr; subst. constructor; [lia | apply IH; assumption].
Qed.


Lemma List_filter_sublist {A : Type} (f : A -> bool) (l : list A) :
  List.filter f l `sublist_of` l.
Proof.
  induction l as [| x l IH]; simpl; [constructor |].
  destruct (f x); constructor; exact IH.
Qed.



Lemma slice0_sublist {A : Type} (l : list A) (stop : JsNum) :
  slice0 l stop `sublist_of` l.
Proof.
  destruct stop as [k |]; simpl; [| reflexivity].
  destruct (k <? 0); apply sublist_take.
Qed.


(** ** Widths *)

Lemma slice0_nonneg {A : Type} (l : list A) (k : Z) :
  0 <= k -> slice0 l (Num k) = firstn (Z.to_nat k) l.
Proof.
  intros Hk. simpl. destruct (Z.ltb_spec k 0); [lia | reflexivity].
Qed.

Lemma recursionSelection_length (argv : Args) (results : list Results) :
  0 <= arg_recursive argv ->
  length (recursionSelection argv results)
  = Nat.min (Z.to_nat (arg_recursive argv))
      (length (List.filter (filterExcludes argv) results)).
Proof.
  intros Hr. unfold recursionSelection.
  rewrite slice0_nonneg by exact Hr. apply length_firstn.
Qed.




Lemma printRows_events (argv : Args) (index : Z) (rows : list Results)
    (dev : bool) :
  printRows index rows dev = (tableRows index rows dev, Done tt).
Proof.
  revert index. induction rows as [| pkg rest IH]; intros index; simpl;
    [reflexivity |].
  rewrite IH. reflexivity.
Qed.

Lemma printOutput_events (argv : Args) (results : list Results) (dev : bool) :
  events (printOutput argv results dev)
  = ConsoleLog (Text (tableHeader dev))
      :: tableRows 0 (displayed argv results) dev.
Proof.
  unfold printOutput. simpl. rewrite (printRows_events argv). reflexivity.
Qed.

Section Runs.

Variable argv : Args.
Variable registry : string -> string -> option NpmPackageInfo.
Variable dependentsView : string -> bool -> option DependentsResponse.
Variable downloadsView : list string -> option (list (Row Z)).
Variable semver_satisfies : string -> string -> bool.

Let run := main argv registry dependentsView downloadsView semver_satisfies.

(** C8.  With the list flag, a run whose package resolves and whose
    dependents are fetched does nothing more than pass [d.value], the
    object with the name and the range, to [console.log] for each filtered
    dependent: it requests no download statistics and prints no table,
    and what it prints is the object, not the name. *)
Theorem main_list_mode (fuel : nat) (inputPackage : string) (depths : Z)
    (packageName : string) (version : option string) (info : NpmPackageInfo)
    (ev1 : list Event) (dependentsWithVersion : list (Row DependentValue)) :
  arg_list argv = true ->
  getPackageNameAndVersion inputPackage = (packageName, version) ->
  registry packageName (default "latest" version) = Some info ->
  fetchDependents dependentsView packageName (arg_dev argv)
    = (ev1, Done dependentsWithVersion) ->
  run (S fuel) inputPackage depths =
    (([FetchPackageInfo packageName (default "latest" version);
      FetchDependents packageName (arg_dev argv)]
     ++ map (fun d => ConsoleLog (Inspected (row_value d)))
          (versionFilter semver_satisfies version (info_version info)
             dependentsWithVersion))%list,
     Done None) /\
  (forall d : Row DependentValue,
      ConsoleLog (Inspected (row_value d))
      <> ConsoleLog (Text (dep_name (row_value d)))).
Proof.
  intros Hlist Hparse Hreg Hdeps. split; [| discriminate].
  pose proof (fetchDependents_events _ _ _ _ _ Hdeps) as ->.
  unfold run. simpl. rewrite Hparse. unfold fetchPackageInfo.
  replace (match version with Some v => v | None => "latest" end)
    with (default "latest" version) by (destruct version; reflexivity).
  rewrite Hreg. simpl. rewrite Hdeps, Hlist. simpl.
  rewrite mapM_emit. simpl. rewrite app_nil_r. reflexivity.
Qed.

Lemma main_inv (fuel : nat) (inputPackage : string) (depths : Z)
    (ev : list Event) (res : option (list Results)) :
  run (S fuel) inputPackage depths = (ev, Done res) ->
  (res = Some [] /\ depths <> arg_depths argv) \/
  (arg_list argv = true /\ res = None) \/
  exists info dependents scored topResults ev0 ev1,
    treeBuilt argv registry dependentsView downloadsView semver_satisfies
      fuel inputPackage depths info dependents scored topResults /\
    arg_list argv = false /\
    finish argv info (sortBy byDownloads scored) topResults depths
      = (ev1, Done res) /\
    ev = (ev0 ++ ev1)%list.
Proof.
  unfold run. cbn [main].
  destruct (getPackageNameAndVersion inputPackage)
    as [packageName version] eqn:Hparse.
  intros H.
  apply bind_Done_inv in H as (e1 & packageInfo & e2 & Hinfo & H & ->).
  unfold fetchPackageInfo in Hinfo. simpl in Hinfo.
  replace (match version with Some v => v | None => "latest" end)
    with (default "latest" version) in Hinfo by (destruct version; reflexivity).
  inversion Hinfo; subst e1 packageInfo; clear Hinfo.
  destruct (registry packageName (default "latest" version))
    as [info |] eqn:Hreg.
  2:{ left. simpl in H.
      destruct (truthy (arg_recursive argv)); simpl in H; [| inversion H].
      destruct (Z.eqb_spec (arg_depths argv) depths) as [E | E];
        simpl in H; inversion H.
      split; [reflexivity | congruence]. }
  apply bind_Done_inv in H as (e3 & dependentsWithVersion & e4 & Hdeps & H & ->).
  pose proof (fetchDependents_events _ _ _ _ _ Hdeps) as ->.
  destruct (arg_list argv) eqn:Hlist.
  { right; left. split; [reflexivity |].
    apply bind_Done_inv in H as (? & ? & ? & _ & H & _).
    inversion H; reflexivity. }
  apply bind_Done_inv in H as (e5 & downloadStats & e6 & Hstats & H & ->).
  apply bind_Done_inv in H as (e7 & scored & e8 & Hscored & H & ->).
  apply bind_Done_inv in H as (e9 & topResults & e10 & Htop & H & ->).
  apply fetchDownloadStats_Done_inv in Hstats as (-> & rows & Hrows & ->).
  right; right.
  exists info,
    (versionFilter semver_satisfies version (info_version info)
       dependentsWithVersion),
    scored, topResults,
    ([FetchPackageInfo packageName (default "latest" version);
      FetchDependents packageName (arg_dev argv)]
     ++ [FetchDownloadStats
           (map (fun p => dep_name (row_value p))
              (versionFilter semver_satisfies version (info_version info)
                 dependentsWithVersion))]
     ++ e7 ++ e9)%list,
    e10.
  split.
  { exists packageName, version, dependentsWithVersion, rows.
    split; [exact Hparse |]. split; [exact Hreg |]. split; [exact Hdeps |].
    split; [reflexivity |]. split; [exact Hrows |].
    split.
    - apply mapM_Done_inv in Hscored.
      eapply Forall2_impl; [exact Hscored |].
      intros dep r (e & Hs). simpl. apply score_Done_inv in Hs. tauto.
    - destruct (truthy (arg_recursive argv) && truthy depths).
      + apply mapM_Done_inv in Htop.
        eapply Forall2_impl; [exact Htop |].
        intros r t (e & Hr). simpl in *.
        apply bind_Done_inv in Hr as (ea & [c |] & eb & Hc & Hr & ->).
        * inversion Hr; subst. eauto.
        * inversion Hr.
      + inversion Htop; reflexivity. }
  split; [reflexivity |].
  split; [exact H |].
  simpl. rewrite <- !app_assoc. reflexivity.
Qed.

Lemma finish_Some_inv (info : NpmPackageInfo) (results topResults : list Results)
    (depths : Z) (e : list Event) (l : list Results) :
  finish argv info results topResults depths = (e, Done (Some l)) ->
  l = topResults /\ depths <> arg_depths argv /\ e = [].
Proof.
  unfold finish. destruct (depths =? arg_depths argv) eqn:E; simpl.
  - intros H.
    apply bind_Done_inv in H as (? & ? & ? & _ & H & _).
    apply bind_Done_inv in H as (? & ? & ? & _ & H & _).
    inversion H.
  - intros H. inversion H; subst. apply Z.eqb_neq in E. auto.
Qed.


(** A call that returns a list either could not resolve its package
    (the list is empty) or returns the [topResults] of its tree. *)
Lemma main_returns_inv (fuel : nat) (inputPackage : string) (depths : Z)
    (ev : list Event) (l : list Results) :
  run fuel inputPackage depths = (ev, Done (Some l)) ->
  exists fuel', fuel = S fuel' /\
  (l = [] \/
   depths <> arg_depths argv /\
   exists info dependents scored,
     treeBuilt argv registry dependentsView downloadsView semver_satisfies
       fuel' inputPackage depths info dependents scored l).
Proof.
  destruct fuel as [| fuel']; [discriminate |].
  intros H. exists fuel'. split; [reflexivity |].
  apply main_inv in H as [[H _] | [[_ H] | H]].
  - inversion H. left. reflexivity.
  - discriminate.
  - destruct H as (info & dependents & scored & top & ev0 & ev1 & Hb & _ & Hf & _).
    apply finish_Some_inv in Hf as (-> & Hd & _).
    right. split; [exact Hd |]. exists info, dependents, scored. exact Hb.
Qed.







(** ** Fuel *)

Lemma bind_OutOfFuel {A B : Type} (m : M A) (k : A -> M B) :
  outcome m <> Stopped OutOfFuel ->
  (forall a, outcome (k a) <> Stopped OutOfFuel) ->
  outcome (bind m k) <> Stopped OutOfFuel.
Proof.
  destruct m as [ev [a | why]]; simpl; intros Hm Hk.
  - specialize (Hk a). destruct (k a) as [ev' r]. exact Hk.
  - intros E. apply Hm. inversion E. reflexivity.
Qed.

Lemma mapM_OutOfFuel {A B : Type} (f : A -> M B) (l : list A) :
  (forall x, outcome (f x) <> Stopped OutOfFuel) ->
  outcome (mapM f l) <> Stopped OutOfFuel.
Proof.
  intros Hf. induction l as [| x l IH]; simpl; [discriminate |].
  apply bind_OutOfFuel; [apply Hf |]. intros y.
  apply bind_OutOfFuel; [exact IH |]. intros ys. discriminate.
Qed.

(** A call with a depth that is not negative and with more fuel than
    its depth does not run out of fuel. *)
Lemma main_enough_fuel (fuel : nat) (inputPackage : string) (depths : Z) :
  0 <= depths -> (Z.to_nat depths < fuel)%nat ->
  outcome (run fuel inputPackage depths) <> Stopped OutOfFuel.
Proof.
  unfold run. revert inputPackage depths.
  induction fuel as [| fuel IH]; intros inputPackage depths H0 Hlt; [lia |].
  cbn [main].
  destruct (getPackageNameAndVersion inputPackage) as [packageName version].
  apply bind_OutOfFuel; [discriminate |]. intros [info |].
  2:{ simpl. destruct (truthy (arg_recursive argv)
                       && negb (arg_depths argv =? depths)); discriminate. }
  apply bind_OutOfFuel.
  { unfold fetchDependents. simpl.
    destruct (dependentsView packageName (arg_dev argv)) as [[r | r] |];
      discriminate. }
  intros dependentsWithVersion. destruct (arg_list argv).
  { apply bind_OutOfFuel; [| discriminate].
    rewrite mapM_emit. discriminate. }
  apply bind_OutOfFuel.
  { unfold fetchDownloadStats. simpl.
    destruct (downloadsView _); discriminate. }
  intros downloadStats. apply bind_OutOfFuel.
  { apply mapM_OutOfFuel. intros dep. unfold score.
    destruct (joinDownloads downloadStats dep); discriminate. }
  intros scored. apply bind_OutOfFuel.
  { destruct (truthy (arg_recursive argv)) eqn:Hr; simpl; [| discriminate].
    unfold truthy. destruct (Z.eqb_spec depths 0) as [E | E]; simpl;
      [discriminate |].
    apply mapM_OutOfFuel. intros r.
    apply bind_OutOfFuel; [apply IH; lia |].
    intros [c |]; discriminate. }
  intros top. unfold finish.
  destruct (negb (depths =? arg_depths argv)); [discriminate |].
  apply bind_OutOfFuel.
  { destruct (arg_file argv) as [[| c path] |]; discriminate. }
  intros _. apply bind_OutOfFuel; [| discriminate].
  unfold printOutput. apply bind_OutOfFuel; [discriminate |]. intros _.
  generalize 0 as i.
  induction (displayed argv _) as [| pkg rest IHrows]; intros i; simpl;
    [discriminate |].
  specialize (IHrows (i + 1)).
  destruct (printRows (i + 1) rest (arg_dev argv)) as [e [u | why]];
    simpl in *; [discriminate | exact IHrows].
Qed.

Lemma bind_stable {A B : Type} (m m' : M A) (k k' : A -> M B) :
  (outcome m' <> Stopped OutOfFuel -> m = m') ->
  (forall a, outcome (k' a) <> Stopped OutOfFuel -> k a = k' a) ->
  outcome (bind m' k') <> Stopped OutOfFuel ->
  bind m k = bind m' k'.
Proof.
  intros Hm Hk H.
  assert (Hm' : outcome m' <> Stopped OutOfFuel).
  { intros E. apply H. destruct m' as [ev [a | why]]; simpl in *.
    - discriminate.
    - inversion E. reflexivity. }
  rewrite (Hm Hm'). destruct m' as [ev [a | why]]; simpl; [| reflexivity].
  rewrite Hk; [reflexivity |].
  intros E. apply H. simpl. destruct (k' a) as [ev' r]. exact E.
Qed.

Lemma mapM_stable {A B : Type} (f g : A -> M B) (l : list A) :
  (forall x, outcome (g x) <> Stopped OutOfFuel -> f x = g x) ->
  outcome (mapM g l) <> Stopped OutOfFuel ->
  mapM f l = mapM g l.
Proof.
  intros Hfg. induction l as [| x l IH]; simpl; [reflexivity |].
  apply bind_stable; [apply Hfg |].
  intros y. apply bind_stable; [exact IH | reflexivity].
Qed.

(** A call that does not run out of fuel does the same with more fuel. *)
Lemma main_fuel_stable (fuel : nat) (inputPackage : string) (depths : Z) :
  outcome (run fuel inputPackage depths) <> Stopped OutOfFuel ->
  run (S fuel) inputPackage depths = run fuel inputPackage depths.
Proof.
  unfold run. revert inputPackage depths.
  induction fuel as [| fuel IH]; intros inputPackage depths;
    [intros H; contradiction H; reflexivity |].
  cbn [main].
  destruct (getPackageNameAndVersion inputPackage) as [packageName version].
  apply bind_stable; [reflexivity |]. intros [info |]; [| reflexivity].
  apply bind_stable; [reflexivity |]. intros dependentsWithVersion.
  destruct (arg_list argv) eqn:Hlist; [reflexivity |].
  apply bind_stable; [reflexivity |]. intros downloadStats.
  apply bind_stable; [reflexivity |]. intros scored.
  apply bind_stable; [| reflexivity].
  destruct (truthy (arg_recursive argv) && truthy depths); [| reflexivity].
  apply mapM_stable. intros r.
  apply bind_stable; [| reflexivity].
  intros Hr. rewrite <- (IH _ _ Hr). cbn [main]. rewrite Hlist. reflexivity.
Qed.

End Runs.

Lemma main_list_mode_witness :
  main (Sample.withList Sample.argv) Sample.registry Sample.dependentsView
    Sample.downloadsView Sample.semver_satisfies 1 "b" 0
  = ([FetchPackageInfo "b" "latest"; FetchDependents "b" false;
      ConsoleLog (Inspected {| dep_name := "ghost"; dep_version := "^1.0.0" |});
      ConsoleLog (Inspected {| dep_name := "e"; dep_version := "^1.0.0" |})],
     Done None).
Proof.
  apply (main_list_mode (Sample.withList Sample.argv) Sample.registry
           Sample.dependentsView Sample.downloadsView
           Sample.semver_satisfies 0 "b" 0 "b" None
           {| info_name := "b"; info_version := "1.3.0";
              info_homepage := None;
              info_dist := Some {| tarball := ""; size := 1000 |} |}
           [FetchDependents "b" false]
           [Sample.dependent "b" "ghost" "^1.0.0";
            Sample.dependent "b" "e" "^1.0.0"]);
    reflexivity.
Defined.


(** ** More about the run monad *)

Lemma events_bind {A B : Type} (m : M A) (k : A -> M B) :
  events (bind m k)
  = match m with
    | (ev, Done a) => (ev ++ events (k a))%list
    | (ev, Stopped _) => ev
    end.
Proof.
  destruct m as [ev [a | why]]; simpl; [| reflexivity].
  destruct (k a); reflexivity.
Qed.

Lemma outcome_bind {A B : Type} (m : M A) (k : A -> M B) :
  outcome (bind m k)
  = match m with
    | (_, Done a) => outcome (k a)
    | (_, Stopped why) => Stopped why
    end.
Proof.
  destruct m as [ev [a | why]]; simpl; [| reflexivity].
  destruct (k a); reflexivity.
Qed.

Lemma bind_Forall {A B : Type} (P : Event -> Prop) (m : M A) (k : A -> M B) :
  Forall P (events m) -> (forall a, Forall P (events (k a))) ->
  Forall P (events (bind m k)).
Proof.
  intros Hm Hk. rewrite events_bind. destruct m as [ev [a | why]]; simpl in *.
  - apply Forall_app. split; [exact Hm | apply Hk].
  - exact Hm.
Qed.

Lemma mapM_Forall {A B : Type} (P : Event -> Prop) (f : A -> M B) (l : list A) :
  (forall x, Forall P (events (f x))) -> Forall P (events (mapM f l)).
Proof.
  intros Hf. induction l as [| x l IH]; simpl; [constructor |].
  apply bind_Forall; [apply Hf |]. intros y.
  apply bind_Forall; [exact IH |]. intros ys. constructor.
Qed.

(** A computation that, when it stops, has only events that satisfy [P]. *)
Lemma bind_stopped_Forall {A B : Type} (P : Event -> Prop) (m : M A)
    (k : A -> M B) :
  Forall P (events m) ->
  (forall a why, outcome (k a) = Stopped why -> Forall P (events (k a))) ->
  forall why, outcome (bind m k) = Stopped why -> Forall P (events (bind m k)).
Proof.
  intros Hm Hk why. rewrite events_bind, outcome_bind.
  destruct m as [ev [a | why']]; simpl in *.
  - intros H. apply Forall_app. split; [exact Hm | eapply Hk; exact H].
  - intros _. exact Hm.
Qed.

Lemma bind_avoids {A B : Type} (Q : Abort -> Prop) (m : M A) (k : A -> M B) :
  (forall why, outcome m = Stopped why -> ~ Q why) ->
  (forall a why, outcome (k a) = Stopped why -> ~ Q why) ->
  forall why, outcome (bind m k) = Stopped why -> ~ Q why.
Proof.
  intros Hm Hk why. rewrite outcome_bind.
  destruct m as [ev [a | why']]; simpl in *.
  - apply Hk.
  - intros E. inversion E; subst. apply Hm. reflexivity.
Qed.

Lemma mapM_avoids {A B : Type} (Q : Abort -> Prop) (f : A -> M B) (l : list A) :
  (forall x why, outcome (f x) = Stopped why -> ~ Q why) ->
  forall why, outcome (mapM f l) = Stopped why -> ~ Q why.
Proof.
  intros Hf. induction l as [| x l IH]; simpl; [discriminate |].
  apply bind_avoids; [apply Hf |]. intros y.
  apply bind_avoids; [exact IH |]. discriminate.
Qed.

(** The number of events of a kind. *)
Lemma count_app (p : Event -> bool) (a b : list Event) :
  length (List.filter p (a ++ b))
  = (length (List.filter p a) + length (List.filter p b))%nat.
Proof. rewrite List.filter_app, length_app. reflexivity. Qed.

Lemma bind_count {A B : Type} (p : Event -> bool) (m : M A) (k : A -> M B)
    (a b : nat) :
  (length (List.filter p (events m)) <= a)%nat ->
  (forall x, (length (List.filter p (events (k x))) <= b)%nat) ->
  (length (List.filter p (events (bind m k))) <= a + b)%nat.
Proof.
  intros Hm Hk. rewrite events_bind. destruct m as [ev [x | why]]; simpl in *.
  - rewrite count_app. specialize (Hk x). lia.
  - lia.
Qed.

Lemma mapM_count {A B : Type} (p : Event -> bool) (f : A -> M B) (l : list A)
    (b : nat) :
  (forall x, (length (List.filter p (events (f x))) <= b)%nat) ->
  (length (List.filter p (events (mapM f l))) <= length l * b)%nat.
Proof.
  intros Hf. induction l as [| x l IH]; simpl; [lia |].
  replace (b + length l * b)%nat with (b + (length l * b + 0))%nat by lia.
  apply bind_count; [apply Hf |]. intros y.
  apply bind_count; [exact IH |]. intros ys. simpl. lia.
Qed.

Lemma finish_Done (argv : Args) (info : NpmPackageInfo)
    (results topResults : list Results) (depths : Z) :
  exists res, outcome (finish argv info results topResults depths) = Done res.
Proof.
  unfold finish. destruct (negb (depths =? arg_depths argv)); [eexists; reflexivity |].
  rewrite outcome_bind.
  destruct (match arg_file argv with
            | Some (String c path) => _
            | _ => ret tt
            end) as [ev [u | why]] eqn:E.
  - rewrite outcome_bind. unfold printOutput.
    rewrite (printRows_events argv). simpl. eexists; reflexivity.
  - destruct (arg_file argv) as [[| c path] |]; discriminate.
Qed.

Lemma finish_requests (argv : Args) (info : NpmPackageInfo)
    (results topResults : list Results) (depths : Z) :
  Forall (fun e => isRequest e = false)
    (events (finish argv info results topResults depths)).
Proof.
  unfold finish. destruct (negb (depths =? arg_depths argv)); [constructor |].
  apply bind_Forall.
  - destruct (arg_file argv) as [[| c path] |]; repeat constructor.
  - intros _. apply bind_Forall; [| intros; constructor].
    rewrite printOutput_events. constructor; [reflexivity |].
    generalize 0 as i.
    induction (displayed argv _) as [| pkg rest IH]; intros i; simpl;
      constructor; [reflexivity | apply IH].
Qed.

(** ** Calls, requests and output of a run *)

Section Calls.

Variable argv : Args.
Variable registry : string -> string -> option NpmPackageInfo.
Variable dependentsView : string -> bool -> option DependentsResponse.
Variable downloadsView : list string -> option (list (Row Z)).
Variable semver_satisfies : string -> string -> bool.

Let run := main argv registry dependentsView downloadsView semver_satisfies.

Lemma main_more_fuel (fuel extra : nat) (inputPackage : string) (depths : Z) :
  outcome (run fuel inputPackage depths) <> Stopped OutOfFuel ->
  run (extra + fuel) inputPackage depths = run fuel inputPackage depths.
Proof.
  intros H. induction extra as [| extra IH]; [reflexivity |].
  change (S extra + fuel)%nat with (S (extra + fuel)).
  unfold run in *. rewrite main_fuel_stable; [exact IH |].
  rewrite IH. exact H.
Qed.

(** X1.  A call with a depth above 0 nests at most [depths + 1] calls:
    every call gives the calls it makes its own depth less 1, and a call
    that is given the number 0 makes none.  With more fuel than the depth
    the model of [main] does not run out of fuel, and what it does is the
    same for every such amount of fuel.  (Above 0 the text of a depth and
    the number behave alike.) *)
Theorem main_terminates (fuel : nat) (inputPackage : string) (depths : Z) :
  0 < depths -> (Z.to_nat depths < fuel)%nat ->
  outcome (run fuel inputPackage depths) <> Stopped OutOfFuel /\
  run fuel inputPackage depths
  = run (S (Z.to_nat depths)) inputPackage depths.
Proof.
  intros H0 Hlt. split; [apply main_enough_fuel; [lia | assumption] |].
  replace fuel with ((fuel - S (Z.to_nat depths)) + S (Z.to_nat depths))%nat
    by lia.
  apply main_more_fuel. apply main_enough_fuel; lia.
Qed.

(** Below the configured depth a call writes nothing to the standard
    output and no file. *)
Lemma main_below_silent (fuel : nat) (inputPackage : string) (depths : Z) :
  arg_list argv = false -> depths < arg_depths argv ->
  Forall (fun e => isOutput e = false) (events (run fuel inputPackage depths)).
Proof.
  intros Hlist. unfold run. revert inputPackage depths.
  induction fuel as [| fuel IH]; intros inputPackage depths Hlt; [constructor |].
  cbn [main].
  destruct (getPackageNameAndVersion inputPackage) as [packageName version].
  apply bind_Forall; [repeat constructor |]. intros [info |].
  2:{ apply bind_Forall; [repeat constructor |]. intros _.
      destruct (truthy (arg_recursive argv) && negb (arg_depths argv =? depths));
        constructor. }
  apply bind_Forall.
  { unfold fetchDependents. apply bind_Forall; [repeat constructor |].
    intros _. destruct (dependentsView _ _) as [[r | r] |]; constructor. }
  intros dependentsWithVersion. rewrite Hlist.
  apply bind_Forall.
  { unfold fetchDownloadStats. apply bind_Forall; [repeat constructor |].
    intros _. destruct (downloadsView _); constructor. }
  intros downloadStats. apply bind_Forall.
  { apply mapM_Forall. intros dep. unfold score.
    destruct (joinDownloads downloadStats dep); constructor. }
  intros scored. apply bind_Forall.
  { destruct (truthy (arg_recursive argv) && truthy depths); [| constructor].
    apply mapM_Forall. intros r.
    apply bind_Forall; [apply IH; lia |].
    intros [c |]; constructor. }
  intros top. unfold finish.
  replace (depths =? arg_depths argv) with false
    by (symmetry; apply Z.eqb_neq; lia).
  constructor.
Qed.

(** X2.  A run that ends because the process exits or because a
    request fails has written nothing to the standard output and no file:
    when the call at a depth not above the configured one stops with
    [process.exit] or with an exception, all its events are requests and
    error messages. *)
Theorem main_stopped_silent (fuel : nat) (inputPackage : string) (depths : Z)
    (why : Abort) :
  depths <= arg_depths argv ->
  outcome (run fuel inputPackage depths) = Stopped why ->
  (exists code, why = Exit code) \/ (exists message, why = Throw message) ->
  Forall (fun e => isOutput e = false) (events (run fuel inputPackage depths)).
Proof.
  intros Hle Hstop _. revert Hstop.
  unfold run. destruct fuel as [| fuel]; [constructor |].
  cbn [main].
  destruct (getPackageNameAndVersion inputPackage) as [packageName version].
  revert why. apply bind_stopped_Forall; [repeat constructor |].
  intros [info |].
  2:{ intros why _. apply bind_Forall; [repeat constructor |]. intros _.
      destruct (truthy (arg_recursive argv) && negb (arg_depths argv =? depths));
        constructor. }
  apply bind_stopped_Forall.
  { unfold fetchDependents. apply bind_Forall; [repeat constructor |].
    intros _. destruct (dependentsView _ _) as [[r | r] |]; constructor. }
  intros dependentsWithVersion. destruct (arg_list argv) eqn:Hlist.
  { intros why H. rewrite outcome_bind, mapM_emit in H. discriminate. }
  apply bind_stopped_Forall.
  { unfold fetchDownloadStats. apply bind_Forall; [repeat constructor |].
    intros _. destruct (downloadsView _); constructor. }
  intros downloadStats. apply bind_stopped_Forall.
  { apply mapM_Forall. intros dep. unfold score.
    destruct (joinDownloads downloadStats dep); constructor. }
  intros scored. apply bind_stopped_Forall.
  { destruct (truthy (arg_recursive argv) && truthy depths); [| constructor].
    apply mapM_Forall. intros r.
    apply bind_Forall; [apply main_below_silent; [exact Hlist | lia] |].
    intros [c |]; constructor. }
  intros top why H.
  destruct (finish_Done argv info (sortBy byDownloads scored) top depths)
    as [res E].
  rewrite E in H. discriminate.
Qed.

(** X3.  With a recursion width that is not 0, a call below the
    configured depth never ends the process: [process.exit] is reached by
    the call at the configured depth only. *)
Theorem main_below_never_exits (fuel : nat) (inputPackage : string)
    (depths : Z) (code : option Z) :
  truthy (arg_recursive argv) = true -> depths < arg_depths argv ->
  outcome (run fuel inputPackage depths) <> Stopped (Exit code).
Proof.
  intros Hr Hlt H.
  enough (Hav : forall why,
             outcome (run fuel inputPackage depths) = Stopped why ->
             ~ (exists c, why = Exit c)).
  { apply (Hav _ H). eexists; reflexivity. }
  clear H. unfold run. revert inputPackage depths Hlt.
  induction fuel as [| fuel IH]; intros inputPackage depths Hlt.
  { simpl. intros why E [c ->]. discriminate. }
  cbn [main].
  destruct (getPackageNameAndVersion inputPackage) as [packageName version].
  apply bind_avoids; [discriminate |]. intros [info |].
  2:{ apply bind_avoids; [discriminate |]. intros _. rewrite Hr.
      replace (arg_depths argv =? depths) with false
        by (symmetry; apply Z.eqb_neq; lia).
      discriminate. }
  apply bind_avoids.
  { unfold fetchDependents. apply bind_avoids; [discriminate |]. intros _.
    destruct (dependentsView _ _) as [[r | r] |]; simpl;
      intros why E; inversion E; intros [c Hc]; discriminate. }
  intros dependentsWithVersion. destruct (arg_list argv).
  { intros why E. rewrite outcome_bind, mapM_emit in E. discriminate. }
  apply bind_avoids.
  { unfold fetchDownloadStats. apply bind_avoids; [discriminate |]. intros _.
    destruct (downloadsView _); simpl;
      intros why E; inversion E; intros [c Hc]; discriminate. }
  intros downloadStats. apply bind_avoids.
  { apply mapM_avoids. intros dep. unfold score.
    destruct (joinDownloads downloadStats dep); simpl;
      intros why E; inversion E; intros [c Hc]; discriminate. }
  intros scored. apply bind_avoids.
  { destruct (truthy (arg_recursive argv) && truthy depths); [| discriminate].
    apply mapM_avoids. intros r.
    apply bind_avoids; [apply IH; lia |].
    intros [c |]; simpl; intros why E; inversion E.
    intros [c' Hc]; discriminate. }
  intros top why E.
  destruct (finish_Done argv info (sortBy byDownloads scored) top depths)
    as [res E']. rewrite E' in E. discriminate.
Qed.

Lemma main_requests_le (fuel : nat) (inputPackage : string) (depths : Z) :
  0 <= arg_recursive argv -> 0 <= depths ->
  (length (List.filter isRequest (events (run fuel inputPackage depths)))
   <= 3 * fanOut (Z.to_nat (arg_recursive argv)) (Z.to_nat depths))%nat.
Proof.
  intros Hr. unfold run. revert inputPackage depths.
  induction fuel as [| fuel IH]; intros inputPackage depths H0; [simpl; lia |].
  cbn [main].
  destruct (getPackageNameAndVersion inputPackage) as [packageName version].
  set (w := Z.to_nat (arg_recursive argv)).
  assert (Hfan : (1 <= fanOut w (Z.to_nat depths))%nat)
    by (destruct (Z.to_nat depths); simpl; lia).
  assert (Hsub : forall l : list Results,
                 (length (List.filter isRequest
                            (events
                               (if truthy (arg_recursive argv) && truthy depths
                                then
                                  mapM
                                    (fun r =>
                                       recursiveResults <-
                                         main argv registry dependentsView
                                           downloadsView semver_satisfies fuel
                                           (name r) (depths - 1) ;;
                                       match recursiveResults with
                                       | Some recursiveResults =>
                                           ret (setChildren r recursiveResults)
                                       | None => stop (IllTyped "children")
                                       end)
                                    (recursionSelection argv l)
                                else ret l)))
                  <= 3 * fanOut w (Z.to_nat depths) - 3)%nat).
  { intros l. unfold truthy.
    destruct (Z.eqb_spec depths 0) as [E | E];
      [rewrite andb_false_r; simpl; lia |].
    destruct (negb (arg_recursive argv =? 0)); simpl; [| lia].
    replace (Z.to_nat depths) with (S (Z.to_nat (depths - 1))) by lia.
    cbn [fanOut].
    etransitivity.
    - apply (mapM_count isRequest _ _ (3 * fanOut w (Z.to_nat (depths - 1)))).
      intros r.
      replace (3 * fanOut w (Z.to_nat (depths - 1)))%nat
        with (3 * fanOut w (Z.to_nat (depths - 1)) + 0)%nat by lia.
      apply bind_count; [apply IH; lia |].
      intros [c |]; simpl; lia.
    - assert (Hlen : (length (recursionSelection argv l) <= w)%nat).
      { rewrite recursionSelection_length by exact Hr. unfold w. lia. }
      nia. }
  replace (3 * fanOut w (Z.to_nat depths))%nat
    with (1 + (1 + (1 + (0 + ((3 * fanOut w (Z.to_nat depths) - 3) + 0)))))%nat
    by lia.
  apply bind_count; [simpl; lia |]. intros [info |].
  2:{ etransitivity; [apply (bind_count isRequest _ _ 0 0) |]; [simpl; lia | | lia].
      intros _.
      destruct (truthy (arg_recursive argv) && negb (arg_depths argv =? depths));
        simpl; lia. }
  apply bind_count.
  { unfold fetchDependents. simpl.
    destruct (dependentsView _ _) as [[r | r] |]; simpl; lia. }
  intros dependentsWithVersion. destruct (arg_list argv).
  { etransitivity; [apply (bind_count isRequest _ _ 0 0) |]; [| simpl; lia | lia].
    rewrite mapM_emit. simpl.
    induction (versionFilter _ _ _ _) as [| d ds IHd]; simpl; lia. }
  apply bind_count.
  { unfold fetchDownloadStats. simpl. destruct (downloadsView _); simpl; lia. }
  intros downloadStats. apply bind_count.
  { etransitivity; [apply (mapM_count isRequest _ _ 0) |]; [| lia].
    intros dep. unfold score.
    destruct (joinDownloads downloadStats dep); simpl; lia. }
  intros scored. apply bind_count; [apply Hsub |].
  intros top.
  pose proof (finish_requests argv info (sortBy byDownloads scored) top depths)
    as Hf.
  induction Hf as [| e es He Hes IHf]; simpl; [lia |].
  rewrite He. exact IHf.
Qed.

(** X4.  With a width and a depth above 0, a call sends at most three
    requests for each call of a full tree of calls of that width and
    depth, whatever the services answer:
    [3 * (1 + w + w^2 + ... + w^d)] requests; with depth 1 that is at most
    [3 + 3 * w] requests.  (Above 0 the text of an option and the number
    behave alike.) *)
Theorem main_requests_bounded (fuel : nat) (inputPackage : string) (depths : Z) :
  0 < arg_recursive argv -> 0 < depths ->
  (length (List.filter isRequest (events (run fuel inputPackage depths)))
   <= 3 * fanOut (Z.to_nat (arg_recursive argv)) (Z.to_nat depths))%nat /\
  (depths = 1 ->
   (length (List.filter isRequest (events (run fuel inputPackage depths)))
    <= 3 + 3 * Z.to_nat (arg_recursive argv))%nat).
Proof.
  intros Hr H0.
  assert (H : (length (List.filter isRequest
                         (events (run fuel inputPackage depths)))
               <= 3 * fanOut (Z.to_nat (arg_recursive argv))
                      (Z.to_nat depths))%nat)
    by (apply main_requests_le; lia).
  split; [exact H |].
  intros E. subst depths. revert H.
  change (Z.to_nat 1) with 1%nat. cbn [fanOut]. lia.
Qed.

End Calls.

(** ** Shape of the trees *)

Lemma Forall2_Forall_transfer {A B : Type} (P : A -> Prop) (R : A -> B -> Prop)
    (Q : B -> Prop) (a : list A) (b : list B) :
  Forall P a -> Forall2 R a b -> (forall x y, P x -> R x y -> Q y) ->
  Forall Q b.
Proof.
  intros HP HR HQ. induction HR as [| x y a b Hxy Hab IH]; [constructor |].
  inversion HP; subst. constructor; [eapply HQ; eassumption | apply IH; assumption].
Qed.

Lemma sublist_Forall_weaken {A : Type} (P : A -> Prop) (a b : list A) :
  a `sublist_of` b -> Forall P b -> Forall P a.
Proof.
  intros Hs Hb. apply List.Forall_forall. intros x Hx.
  rewrite List.Forall_forall in Hb. apply Hb.
  apply list_elem_of_In. eapply elem_of_sublist; [| exact Hs].
  apply list_elem_of_In. exact Hx.
Qed.

Lemma recursionSelection_sublist (argv : Args) (results : list Results) :
  recursionSelection argv results `sublist_of` results.
Proof.
  unfold recursionSelection.
  etrans; [apply slice0_sublist | apply List_filter_sublist].
Qed.

Lemma displayed_sublist (argv : Args) (results : list Results) :
  displayed argv results `sublist_of` results.
Proof.
  unfold displayed.
  etrans; [apply slice0_sublist |].
  etrans; [apply slice0_sublist | apply List_filter_sublist].
Qed.

Lemma height_children (cs : list Results) (n : nat) :
  Forall (fun c => (height c <= n)%nat) cs ->
  (fold_right (fun c h => Nat.max (S (height c)) h) 0%nat cs <= S n)%nat.
Proof.
  induction 1 as [| c cs Hc Hcs IH]; simpl; lia.
Qed.

Lemma height_setChildren (r : Results) (cs : list Results) (n : nat) :
  Forall (fun c => (height c <= n)%nat) cs ->
  (height (setChildren r cs) <= S n)%nat.
Proof. intros H. simpl. apply height_children, H. Qed.

Lemma height_childless (r : Results) : children r = [] -> height r = 0%nat.
Proof. destruct r as [n d t dev c v]; simpl. intros ->. reflexivity. Qed.

Lemma scoredUnder_unfold registry inputPackage (t : Results) :
  scoredUnder registry inputPackage t <->
  (exists info,
      resolved registry inputPackage = Some info /\
      traffic t = downloads t * distSize info) /\
  Forall (scoredUnder registry (name t)) (children t).
Proof.
  destruct t as [n d tr dev c v]. simpl.
  assert (E : fold_right
                (fun c0 P => scoredUnder registry n c0 /\ P) True c
              <-> Forall (scoredUnder registry n) c).
  { induction c as [| x c IH]; simpl.
    - split; [constructor | tauto].
    - rewrite IH. split.
      + intros [Hx Hc]. constructor; assumption.
      + intros H. inversion H; subst. tauto. }
  rewrite E. reflexivity.
Qed.

Lemma writeBack_sameScore (argv : Args) (k : nat)
    (results topResults : list Results) :
  Forall2 sameScore
    (firstn k (List.filter (filterExcludes argv) results)) topResults ->
  Forall2 sameScore results (writeBack argv results topResults).
Proof.
  assert (Hrefl : forall l : list Results, Forall2 sameScore l l).
  { intros l. induction l; constructor; [repeat split | assumption]. }
  revert k topResults. induction results as [| r rs IH]; intros k top H.
  { destruct top; constructor. }
  simpl in H. destruct (filterExcludes argv r) eqn:Hr.
  - destruct k as [| k]; simpl in H.
    + inversion H; subst. simpl. apply Hrefl.
    + inversion H as [| ? t ? ts Hrt Hrest]; subst. simpl. rewrite Hr.
      constructor; [exact Hrt | eapply IH; exact Hrest].
  - destruct top as [| t ts]; [apply Hrefl |].
    simpl. rewrite Hr. constructor; [repeat split | eapply IH; exact H].
Qed.

Lemma slice0_firstn {A : Type} (l : list A) (stop : JsNum) :
  exists k, slice0 l stop = firstn k l.
Proof.
  destruct stop as [z |]; simpl.
  - destruct (z <? 0); eexists; reflexivity.
  - exists (length l). symmetry. apply firstn_all.
Qed.

Section Trees.

Variable argv : Args.
Variable registry : string -> string -> option NpmPackageInfo.
Variable dependentsView : string -> bool -> option DependentsResponse.
Variable downloadsView : list string -> option (list (Row Z)).
Variable semver_satisfies : string -> string -> bool.

Let run := main argv registry dependentsView downloadsView semver_satisfies.
Let built := treeBuilt argv registry dependentsView downloadsView
               semver_satisfies.

(** What the scoring gives every node of [scored]. *)
Lemma treeBuilt_scored (fuel : nat) (inputPackage : string) (depths : Z)
    (info : NpmPackageInfo) (dependents : list (Row DependentValue))
    (scored topResults : list Results) :
  built fuel inputPackage depths info dependents scored topResults ->
  resolved registry inputPackage = Some info /\
  length scored = length dependents /\
  Forall (fun r => children r = [] /\
                   traffic r = downloads r * distSize info /\
                   isDevDependency r = arg_dev argv)
    scored.
Proof.
  intros (packageName & version & dWV & rows & Hparse & Hreg & _ & _ & _
          & Hsc & _).
  split; [unfold resolved; rewrite Hparse; exact Hreg |].
  split; [symmetry; eapply Forall2_length; exact Hsc |].
  clear - Hsc. induction Hsc as [| dep r ds rs Hr Hrest IH]; constructor;
    [| exact IH].
  unfold score in Hr. destruct (joinDownloads _ dep); inversion Hr; subst.
  simpl. auto.
Qed.

(** The nodes of [topResults] are nodes of [scored], in the order of the
    sort, with children only when the call recurses. *)
Lemma treeBuilt_top (fuel : nat) (inputPackage : string) (depths : Z)
    (info : NpmPackageInfo) (dependents : list (Row DependentValue))
    (scored topResults : list Results) :
  built fuel inputPackage depths info dependents scored topResults ->
  exists selection,
    selection `sublist_of` sortBy byDownloads scored /\
    Forall2
      (fun r t =>
         sameScore r t /\
         (children t = children r \/
          truthy (arg_recursive argv) && truthy depths = true /\
          exists e,
            run fuel (name r) (depths - 1) = (e, Done (Some (children t)))))
      selection topResults.
Proof.
  intros (packageName & version & dWV & rows & _ & _ & _ & _ & _ & _ & Htop).
  destruct (truthy (arg_recursive argv) && truthy depths).
  - exists (recursionSelection argv (sortBy byDownloads scored)).
    split; [apply recursionSelection_sublist |].
    eapply Forall2_impl; [exact Htop |].
    intros r t (e & c & Hc & ->). split; [repeat split |].
    right. split; [reflexivity |]. exists e. exact Hc.
  - exists topResults. subst topResults. split; [reflexivity |].
    induction (sortBy byDownloads scored) as [| x l IH]; constructor;
      [| exact IH].
    split; [repeat split | left; reflexivity].
Qed.

Lemma main_returns_height (fuel : nat) (inputPackage : string) (depths : Z)
    (ev : list Event) (l : list Results) :
  0 <= depths ->
  run fuel inputPackage depths = (ev, Done (Some l)) ->
  Forall (fun t => (height t <= Z.to_nat depths)%nat /\
                   (truthy (arg_recursive argv) = false -> children t = []))
    l.
Proof.
  revert inputPackage depths ev l.
  induction fuel as [| fuel IH]; intros inputPackage depths ev l H0 H;
    [discriminate |].
  apply main_returns_inv in H as (fuel' & Ef & [-> | (_ & info & deps & scored & Hb)]);
    [constructor |].
  inversion Ef; subst fuel'.
  destruct (treeBuilt_scored _ _ _ _ _ _ _ Hb) as (_ & _ & Hsc).
  destruct (treeBuilt_top _ _ _ _ _ _ _ Hb) as (sel & Hsub & Hsel).
  eapply (Forall2_Forall_transfer _ _ _ sel l); [| exact Hsel |].
  - eapply sublist_Forall_weaken; [exact Hsub |].
    apply sortBy_Forall. exact Hsc.
  - intros r t (Hc & _ & _) (_ & [Ect | (Hrec & e & Hrun)]).
    + rewrite (height_childless t) by congruence.
      split; [lia | intros _; congruence].
    + apply andb_prop in Hrec as [Hr Hd].
      assert (depths <> 0).
      { unfold truthy in Hd. destruct (Z.eqb_spec depths 0); [discriminate | assumption]. }
      split; [| rewrite Hr; discriminate].
      apply IH in Hrun; [| lia].
      replace (Z.to_nat depths) with (S (Z.to_nat (depths - 1))) by lia.
      destruct t as [n d tr dev c v]. simpl in *.
      apply height_children.
      eapply List.Forall_impl; [| exact Hrun]. simpl. tauto.
Qed.

Lemma main_returns_scored (fuel : nat) (inputPackage : string) (depths : Z)
    (ev : list Event) (l : list Results) :
  run fuel inputPackage depths = (ev, Done (Some l)) ->
  Forall (scoredUnder registry inputPackage) l.
Proof.
  revert inputPackage depths ev l.
  induction fuel as [| fuel IH]; intros inputPackage depths ev l H;
    [discriminate |].
  apply main_returns_inv in H as (fuel' & Ef & [-> | (_ & info & deps & scored & Hb)]);
    [constructor |].
  inversion Ef; subst fuel'.
  destruct (treeBuilt_scored _ _ _ _ _ _ _ Hb) as (Hres & _ & Hsc).
  destruct (treeBuilt_top _ _ _ _ _ _ _ Hb) as (sel & Hsub & Hsel).
  eapply (Forall2_Forall_transfer _ _ _ sel l); [| exact Hsel |].
  - eapply sublist_Forall_weaken; [exact Hsub |].
    apply sortBy_Forall. exact Hsc.
  - intros r t (Hc & Htr & _) ((Hn & Hd & Ht & _) & Hkids).
    apply scoredUnder_unfold. split.
    + exists info. split; [exact Hres | congruence].
    + destruct Hkids as [Ect | (_ & e & Hrun)].
      * rewrite Ect, Hc. constructor.
      * rewrite Hn. eapply IH. exact Hrun.
Qed.

End Trees.

(** ** What the call at the configured depth shows *)

Lemma bind_Done_inv_Forall {A B : Type} (P : Event -> Prop) (m : M A)
    (k : A -> M B) ev b :
  Forall P (events m) ->
  bind m k = (ev, Done b) ->
  exists ev1 a ev2,
    m = (ev1, Done a) /\ k a = (ev2, Done b) /\ ev = (ev1 ++ ev2)%list /\
    Forall P ev1.
Proof.
  intros HP H. apply bind_Done_inv in H as (ev1 & a & ev2 & Hm & Hk & ->).
  exists ev1, a, ev2. rewrite Hm in HP. auto.
Qed.

Lemma writeBack_Forall (argv : Args) (P : Results -> Prop)
    (results topResults : list Results) :
  Forall P results -> Forall P topResults ->
  Forall P (writeBack argv results topResults).
Proof.
  intros Hr. revert topResults.
  induction Hr as [| r rs Hr Hrs IH]; intros top Ht; [destruct top; constructor |].
  destruct top as [| t ts]; [constructor; assumption |].
  simpl. inversion Ht; subst.
  destruct (filterExcludes argv r); constructor; auto.
Qed.

Lemma nodesOf_tableRows (index : Z) (rows : list Results) (dev : bool) :
  flat_map nodesOf (tableRows index rows dev) = rows.
Proof.
  revert index. induction rows as [| r rows IH]; intros index; simpl;
    [reflexivity | rewrite IH; reflexivity].
Qed.

Lemma nodesOf_silent (ev : list Event) :
  Forall (fun e => isOutput e = false) ev -> flat_map nodesOf ev = [].
Proof.
  induction 1 as [| e ev He Hev IH]; simpl; [reflexivity |].
  rewrite IH. destruct e as [| | | | [| |] |]; simpl in *;
    try reflexivity; discriminate.
Qed.

Lemma finish_top_events (argv : Args) (info : NpmPackageInfo)
    (results topResults : list Results) :
  finish argv info results topResults (arg_depths argv)
  = ((writtenFile argv results topResults (arg_depths argv)
      ++ ConsoleLog (Text (tableHeader (arg_dev argv)))
         :: tableRows 0
              (displayed argv
                 (if arg_accumulate argv
                  then accumulatePass info topResults else topResults))
              (arg_dev argv))%list,
     Done None).
Proof.
  unfold finish, writtenFile, printOutput.
  rewrite Z.eqb_refl. cbn [negb].
  rewrite (printRows_events argv).
  destruct (arg_file argv) as [[| c path] |]; simpl; rewrite ?app_nil_r;
    reflexivity.
Qed.

Section Output.

Variable argv : Args.
Variable registry : string -> string -> option NpmPackageInfo.
Variable dependentsView : string -> bool -> option DependentsResponse.
Variable downloadsView : list string -> option (list (Row Z)).
Variable semver_satisfies : string -> string -> bool.

Let run := main argv registry dependentsView downloadsView semver_satisfies.
Let built := treeBuilt argv registry dependentsView downloadsView
               semver_satisfies.

(** A call that completes, out of list mode and not above the configured
    depth: before the end of [main] (index.ts 376) it has only sent
    requests and error messages. *)
Lemma main_inv_silent (fuel : nat) (inputPackage : string) (depths : Z)
    (ev : list Event) (res : option (list Results)) :
  run (S fuel) inputPackage depths = (ev, Done res) ->
  arg_list argv = false -> depths <= arg_depths argv ->
  (res = Some [] /\ depths <> arg_depths argv /\
   Forall (fun e => isOutput e = false) ev) \/
  exists info dependents scored topResults ev0 ev1,
    built fuel inputPackage depths info dependents scored topResults /\
    finish argv info (sortBy byDownloads scored) topResults depths
      = (ev1, Done res) /\
    ev = (ev0 ++ ev1)%list /\
    Forall (fun e => isOutput e = false) ev0.
Proof.
  intros H Hlist Hle. unfold run in H. cbn [main] in H.
  destruct (getPackageNameAndVersion inputPackage)
    as [packageName version] eqn:Hparse.
  apply (bind_Done_inv_Forall (fun e => isOutput e = false)) in H
    as (e1 & packageInfo & e2 & Hinfo & H & -> & Q1); [| repeat constructor].
  unfold fetchPackageInfo in Hinfo. simpl in Hinfo.
  replace (match version with Some v => v | None => "latest" end)
    with (default "latest" version) in Hinfo by (destruct version; reflexivity).
  inversion Hinfo; subst e1 packageInfo; clear Hinfo.
  destruct (registry packageName (default "latest" version))
    as [info |] eqn:Hreg.
  2:{ left. simpl in H.
      destruct (truthy (arg_recursive argv)); simpl in H; [| inversion H].
      destruct (Z.eqb_spec (arg_depths argv) depths) as [E | E];
        simpl in H; inversion H.
      split; [reflexivity |]. split; [congruence |]. repeat constructor. }
  apply (bind_Done_inv_Forall (fun e => isOutput e = false)) in H
    as (e3 & dependentsWithVersion & e4 & Hdeps & H & -> & Q2).
  2:{ unfold fetchDependents. apply bind_Forall; [repeat constructor |].
      intros _. destruct (dependentsView _ _) as [[r | r] |]; constructor. }
  pose proof (fetchDependents_events _ _ _ _ _ Hdeps) as ->.
  rewrite Hlist in H.
  apply (bind_Done_inv_Forall (fun e => isOutput e = false)) in H
    as (e5 & downloadStats & e6 & Hstats & H & -> & Q3).
  2:{ unfold fetchDownloadStats. apply bind_Forall; [repeat constructor |].
      intros _. destruct (downloadsView _); constructor. }
  apply (bind_Done_inv_Forall (fun e => isOutput e = false)) in H
    as (e7 & scored & e8 & Hscored & H & -> & Q4).
  2:{ apply mapM_Forall. intros dep. unfold score.
      destruct (joinDownloads downloadStats dep); constructor. }
  apply (bind_Done_inv_Forall (fun e => isOutput e = false)) in H
    as (e9 & topResults & e10 & Htop & H & -> & Q5).
  2:{ destruct (truthy (arg_recursive argv) && truthy depths); [| constructor].
      apply mapM_Forall. intros r.
      apply bind_Forall; [apply main_below_silent; [exact Hlist | lia] |].
      intros [c |]; constructor. }
  apply fetchDownloadStats_Done_inv in Hstats as (-> & rows & Hrows & ->).
  right.
  exists info,
    (versionFilter semver_satisfies version (info_version info)
       dependentsWithVersion),
    scored, topResults,
    ([FetchPackageInfo packageName (default "latest" version);
      FetchDependents packageName (arg_dev argv)]
     ++ [FetchDownloadStats
           (map (fun p => dep_name (row_value p))
              (versionFilter semver_satisfies version (info_version info)
                 dependentsWithVersion))]
     ++ e7 ++ e9)%list,
    e10.
  split.
  { exists packageName, version, dependentsWithVersion, rows.
    split; [exact Hparse |]. split; [exact Hreg |]. split; [exact Hdeps |].
    split; [reflexivity |]. split; [exact Hrows |].
    split.
    - apply mapM_Done_inv in Hscored.
      eapply Forall2_impl; [exact Hscored |].
      intros dep r (e & Hs). simpl. apply score_Done_inv in Hs. tauto.
    - destruct (truthy (arg_recursive argv) && truthy depths).
      + apply mapM_Done_inv in Htop.
        eapply Forall2_impl; [exact Htop |].
        intros r t (e & Hr). simpl in *.
        apply bind_Done_inv in Hr as (ea & [c |] & eb & Hc & Hr & ->).
        * inversion Hr; subst. eauto.
        * inversion Hr.
      + inversion Htop; reflexivity. }
  split; [exact H |].
  split; [simpl; rewrite <- !app_assoc; reflexivity |].
  repeat (apply Forall_app; split); try assumption; repeat constructor.
Qed.

(** A call at the configured depth that completes, out of list mode:
    requests and error messages of the tree building, then the file, then
    the table. *)
Lemma main_top_inv (fuel : nat) (inputPackage : string) (ev : list Event)
    (res : option (list Results)) :
  run (S fuel) inputPackage (arg_depths argv) = (ev, Done res) ->
  arg_list argv = false ->
  exists info dependents scored topResults ev0,
    built fuel inputPackage (arg_depths argv) info dependents scored
      topResults /\
    Forall (fun e => isOutput e = false) ev0 /\
    res = None /\
    ev = (ev0
          ++ writtenFile argv (sortBy byDownloads scored) topResults
               (arg_depths argv)
          ++ ConsoleLog (Text (tableHeader (arg_dev argv)))
             :: tableRows 0
                  (displayed argv
                     (if arg_accumulate argv
                      then accumulatePass info topResults else topResults))
                  (arg_dev argv))%list.
Proof.
  intros H Hlist.
  apply main_inv_silent in H as [(_ & Hd & _) | H]; [congruence | | exact Hlist | lia].
  destruct H as (info & deps & scored & top & ev0 & ev1 & Hb & Hf & -> & Q).
  rewrite finish_top_events in Hf. inversion Hf; subst ev1 res. clear Hf.
  exists info, deps, scored, top, ev0. auto.
Qed.

End Output.

Lemma height_0_childless (r : Results) : (height r <= 0)%nat -> children r = [].
Proof.
  destruct r as [n d t dev c v]; simpl. destruct c as [| x c]; [reflexivity |].
  simpl. lia.
Qed.

Section Shown.

Variable argv : Args.
Variable registry : string -> string -> option NpmPackageInfo.
Variable dependentsView : string -> bool -> option DependentsResponse.
Variable downloadsView : list string -> option (list (Row Z)).
Variable semver_satisfies : string -> string -> bool.

Let run := main argv registry dependentsView downloadsView semver_satisfies.
Let built := treeBuilt argv registry dependentsView downloadsView
               semver_satisfies.

(** The bound of a call at depth [depths] on the nodes it builds. *)
Let shallow (depths : Z) (t : Results) : Prop :=
  (height t <= Z.to_nat depths)%nat /\
  (arg_recursive argv = 0 \/ depths = 0 -> children t = []).

Lemma shallow_childless (depths : Z) (t : Results) :
  children t = [] -> shallow depths t.
Proof.
  intros H. split; [rewrite (height_childless t H); lia | intros _; exact H].
Qed.

Lemma treeBuilt_shallow (fuel : nat) (inputPackage : string) (depths : Z)
    (info : NpmPackageInfo) (dependents : list (Row DependentValue))
    (scored topResults : list Results) :
  0 <= depths ->
  built fuel inputPackage depths info dependents scored topResults ->
  Forall (shallow depths) (sortBy byDownloads scored) /\
  Forall (shallow depths) topResults.
Proof.
  intros H0 Hb.
  destruct (treeBuilt_scored _ _ _ _ _ _ _ _ _ _ _ _ Hb) as (_ & _ & Hsc).
  destruct (treeBuilt_top _ _ _ _ _ _ _ _ _ _ _ _ Hb) as (sel & Hsub & Hsel).
  assert (Hres : Forall (fun r => children r = []) (sortBy byDownloads scored)).
  { apply sortBy_Forall. eapply List.Forall_impl; [| exact Hsc]. simpl. tauto. }
  split.
  { eapply List.Forall_impl; [| exact Hres]. apply shallow_childless. }
  eapply (Forall2_Forall_transfer _ _ _ sel topResults); [| exact Hsel |].
  - eapply sublist_Forall_weaken; [exact Hsub | exact Hres].
  - intros r t Hc (_ & [Ect | (Hrec & e & Hrun)]).
    + apply shallow_childless. congruence.
    + apply andb_prop in Hrec as [Hr Hd]. unfold truthy in Hr, Hd.
      destruct (Z.eqb_spec depths 0) as [| Hd0]; [discriminate |].
      destruct (Z.eqb_spec (arg_recursive argv) 0) as [| Hr0]; [discriminate |].
      split; [| intros [? | ?]; contradiction].
      apply main_returns_height in Hrun; [| lia].
      replace (Z.to_nat depths) with (S (Z.to_nat (depths - 1))) by lia.
      destruct t as [n d tr dev c v]. simpl in *.
      apply height_children.
      eapply List.Forall_impl; [| exact Hrun]. simpl. tauto.
Qed.

Lemma treeBuilt_scoredUnder (fuel : nat) (inputPackage : string) (depths : Z)
    (info : NpmPackageInfo) (dependents : list (Row DependentValue))
    (scored topResults : list Results) :
  built fuel inputPackage depths info dependents scored topResults ->
  Forall (scoredUnder registry inputPackage) (sortBy byDownloads scored) /\
  Forall (scoredUnder registry inputPackage) topResults.
Proof.
  intros Hb.
  destruct (treeBuilt_scored _ _ _ _ _ _ _ _ _ _ _ _ Hb) as (Hres & _ & Hsc).
  destruct (treeBuilt_top _ _ _ _ _ _ _ _ _ _ _ _ Hb) as (sel & Hsub & Hsel).
  assert (Hsorted : Forall (fun r => children r = [] /\
                                     traffic r = downloads r * distSize info)
                      (sortBy byDownloads scored)).
  { apply sortBy_Forall. eapply List.Forall_impl; [| exact Hsc]. simpl. tauto. }
  split.
  { eapply List.Forall_impl; [| exact Hsorted]. simpl. intros r [Hc Ht].
    apply scoredUnder_unfold. split; [eauto |]. rewrite Hc. constructor. }
  eapply (Forall2_Forall_transfer _ _ _ sel topResults); [| exact Hsel |].
  - eapply sublist_Forall_weaken; [exact Hsub | exact Hsorted].
  - intros r t (Hc & Htr) ((Hn & Hd & Ht & _) & Hkids).
    apply scoredUnder_unfold. split.
    + exists info. split; [exact Hres | congruence].
    + destruct Hkids as [Ect | (_ & e & Hrun)].
      * rewrite Ect, Hc. constructor.
      * rewrite Hn. eapply main_returns_scored. exact Hrun.
Qed.

(** The nodes that the call at the configured depth writes and prints
    are nodes of its sorted list, of its [topResults] or of the
    accumulation pass. *)
Lemma main_top_nodes (P : Results -> Prop) (fuel : nat) (inputPackage : string)
    (ev : list Event) (res : option (list Results)) :
  run (S fuel) inputPackage (arg_depths argv) = (ev, Done res) ->
  arg_list argv = false ->
  (forall info dependents scored topResults,
      built fuel inputPackage (arg_depths argv) info dependents scored
        topResults ->
      Forall P (sortBy byDownloads scored) /\ Forall P topResults /\
      Forall P (accumulatePass info topResults)) ->
  Forall P (flat_map nodesOf ev).
Proof.
  intros H Hlist HP.
  apply main_top_inv in H as (info & deps & scored & top & ev0 & Hb & Q & _ & ->);
    [| exact Hlist].
  destruct (HP _ _ _ _ Hb) as (Hres & Htop & Hacc).
  rewrite !flat_map_app, (nodesOf_silent _ Q). simpl.
  rewrite nodesOf_tableRows. apply Forall_app. split.
  - unfold writtenFile. destruct (arg_file argv) as [[| c path] |];
      simpl; try constructor.
    rewrite app_nil_r.
    destruct (truthy (arg_recursive argv) && truthy (arg_depths argv));
      [apply writeBack_Forall; assumption | exact Hres].
  - eapply sublist_Forall_weaken; [apply displayed_sublist |].
    destruct (arg_accumulate argv); assumption.
Qed.

(** X5.  The depth of the trees is bounded by the depth of the call:
    with a recursion width that is not 0, a node that a call with a depth
    above 0 returns has at most [depths] levels of children below it; the
    same holds, with the configured depth, for every node that the call
    at the configured depth writes to the file or prints.  (Away from 0
    the text of an option and the number behave alike.) *)
Theorem tree_height_bounded :
  (forall (fuel : nat) (inputPackage : string) (depths : Z)
          (ev : list Event) (l : list Results),
      arg_recursive argv <> 0 -> 0 < depths ->
      run fuel inputPackage depths = (ev, Done (Some l)) ->
      Forall (fun t => (height t <= Z.to_nat depths)%nat) l) /\
  (forall (fuel : nat) (inputPackage : string) (ev : list Event)
          (res : option (list Results)),
      arg_recursive argv <> 0 -> 0 < arg_depths argv ->
      run (S fuel) inputPackage (arg_depths argv) = (ev, Done res) ->
      arg_list argv = false ->
      Forall (fun t => (height t <= Z.to_nat (arg_depths argv))%nat)
        (flat_map nodesOf ev)).
Proof.
  split.
  - intros fuel inputPackage depths ev l _ H0 H.
    apply main_returns_inv in H
      as (fuel' & -> & [-> | (_ & info & deps & scored & Hb)]); [constructor |].
    assert (H0' : 0 <= depths) by lia.
    eapply List.Forall_impl;
      [| apply (treeBuilt_shallow _ _ _ _ _ _ _ H0' Hb)].
    intros t Ht. apply Ht.
  - intros fuel inputPackage ev res _ H0 H Hlist.
    assert (H0' : 0 <= arg_depths argv) by lia.
    eapply List.Forall_impl;
      [| apply (main_top_nodes (shallow (arg_depths argv)) _ _ _ _ H Hlist)].
    { intros t Ht. apply Ht. }
    intros info deps scored top Hb.
    destruct (treeBuilt_shallow _ _ _ _ _ _ _ H0' Hb) as [Hres Htop].
    split; [exact Hres |]. split; [exact Htop |].
    eapply List.Forall_impl; [| apply accumulatePass_fixed_nodes].
    intros r Hr. apply shallow_childless. rewrite <- Hr. reflexivity.
Qed.

(** X6.  The traffic of every node is its downloads times the size of
    the package whose dependent it is: that holds for the nodes a call
    returns with respect to the package of the call, for their children
    with respect to the node, and so on down the tree; and it holds for
    every node that the call at the configured depth writes to the file or
    prints, with or without accumulation. *)
Theorem traffic_is_downloads_times_size :
  (forall (fuel : nat) (inputPackage : string) (depths : Z)
          (ev : list Event) (l : list Results),
      run fuel inputPackage depths = (ev, Done (Some l)) ->
      Forall (scoredUnder registry inputPackage) l) /\
  (forall (fuel : nat) (inputPackage : string) (ev : list Event)
          (res : option (list Results)),
      run (S fuel) inputPackage (arg_depths argv) = (ev, Done res) ->
      arg_list argv = false ->
      Forall (scoredUnder registry inputPackage) (flat_map nodesOf ev)).
Proof.
  split.
  - intros fuel inputPackage depths ev l H.
    eapply main_returns_scored. exact H.
  - intros fuel inputPackage ev res H Hlist.
    apply (main_top_nodes _ _ _ _ _ H Hlist).
    intros info deps scored top Hb.
    destruct (treeBuilt_scoredUnder _ _ _ _ _ _ _ Hb) as [Hres Htop].
    split; [exact Hres |]. split; [exact Htop |].
    destruct (treeBuilt_scored _ _ _ _ _ _ _ _ _ _ _ _ Hb) as (Hinfo & _ & _).
    unfold accumulatePass. apply sortBy_Forall.
    apply List.Forall_forall. intros r Hr.
    apply List.in_map_iff in Hr as (r0 & <- & _).
    apply scoredUnder_unfold. split; [| constructor].
    exists info. split; [exact Hinfo | reflexivity].
Qed.

(** X7.  When no dependent has the name of a member of
    [Object.prototype], so that every download count is a number: with a
    file option that is not empty, the call at the configured depth writes
    the file once, after its requests and before the table, and the file
    holds the whole sorted list: one node for each dependent that passed
    the version filter, sorted by downloads, with the name, downloads,
    traffic and version that the scoring gave, whatever the number,
    exclude and accumulate options are. *)
Theorem file_holds_all_results (fuel : nat) (inputPackage : string)
    (ev : list Event) (res : option (list Results)) (c : ascii)
    (path : string) :
  plainNames dependentsView ->
  run (S fuel) inputPackage (arg_depths argv) = (ev, Done res) ->
  arg_list argv = false ->
  arg_file argv = Some (String c path) ->
  exists info dependents scored topResults ev0 data rows,
    built fuel inputPackage (arg_depths argv) info dependents scored
      topResults /\
    Forall (fun e => isOutput e = false) ev0 /\
    ev = (ev0 ++ WriteFile (String c path) data
              :: ConsoleLog (Text (tableHeader (arg_dev argv)))
              :: tableRows 0 rows (arg_dev argv))%list /\
    Forall2 sameScore (sortBy byDownloads scored) data /\
    length data = length dependents /\
    sortedByDownloads data.
Proof.
  intros _ H Hlist Hfile.
  apply main_top_inv in H as (info & deps & scored & top & ev0 & Hb & Q & _ & ->);
    [| exact Hlist].
  unfold writtenFile. rewrite Hfile.
  assert (Hdata : Forall2 sameScore (sortBy byDownloads scored)
                    (if truthy (arg_recursive argv) && truthy (arg_depths argv)
                     then writeBack argv (sortBy byDownloads scored) top
                     else sortBy byDownloads scored)).
  { assert (Hrefl : forall l : list Results, Forall2 sameScore l l).
    { intros l. induction l; constructor; [repeat split | assumption]. }
    pose proof Hb as (pn & v & dWV & rows & _ & _ & _ & _ & _ & _ & Htop).
    destruct (truthy (arg_recursive argv) && truthy (arg_depths argv));
      [| apply Hrefl].
    unfold recursionSelection in Htop.
    destruct (slice0_firstn
                (List.filter (filterExcludes argv) (sortBy byDownloads scored))
                (Num (arg_recursive argv))) as [k Ek].
    apply (writeBack_sameScore argv k). rewrite <- Ek.
    eapply Forall2_impl; [exact Htop |].
    intros r t (e & cs & _ & ->). repeat split. }
  eexists info, deps, scored, top, ev0, _, _.
  split; [exact Hb |]. split; [exact Q |]. split; [reflexivity |].
  split; [exact Hdata |].
  destruct (treeBuilt_scored _ _ _ _ _ _ _ _ _ _ _ _ Hb) as (_ & Hlen & _).
  split.
  - rewrite <- (Forall2_length _ _ _ Hdata), sortBy_length. exact Hlen.
  - eapply Forall2_sorted; [| apply sortBy_sorted].
    eapply Forall2_impl; [exact Hdata |]. intros r t Hs. apply Hs.
Qed.

End Shown.

(** The dependents of the sample world have plain names. *)
Lemma sample_names_plain : plainNames Sample.dependentsView.
Proof.
  intros packageName dev response. unfold Sample.dependentsView.
  destruct (String.eqb packageName "left-pad");
    [| destruct (String.eqb packageName "b")];
    intros H; inversion H; subst; simpl; repeat constructor;
    unfold objectPrototypeMembers; simpl; intuition discriminate.
Qed.

Lemma main_terminates_witness :
  outcome (Sample.run Sample.recursing 5 "left-pad" 1) <> Stopped OutOfFuel /\
  Sample.run Sample.recursing 5 "left-pad" 1
  = Sample.run Sample.recursing 2 "left-pad" 1.
Proof.
  apply (main_terminates Sample.recursing Sample.registry Sample.dependentsView
           Sample.downloadsView Sample.semver_satisfies 5 "left-pad" 1);
    simpl; lia.
Defined.

Lemma main_stopped_silent_witness :
  outcome (main Sample.recursing Sample.registry Sample.refusingView
             Sample.downloadsView Sample.semver_satisfies 2 "left-pad" 1)
  = Stopped (Throw "HTTP error!") /\
  Forall (fun e => isOutput e = false)
    (events (main Sample.recursing Sample.registry Sample.refusingView
               Sample.downloadsView Sample.semver_satisfies 2 "left-pad" 1)).
Proof.
  split; [reflexivity |].
  apply (main_stopped_silent Sample.recursing Sample.registry
           Sample.refusingView Sample.downloadsView Sample.semver_satisfies
           2 "left-pad" 1 (Throw "HTTP error!")).
  - simpl. lia.
  - reflexivity.
  - right. eexists. reflexivity.
Defined.

Lemma main_below_never_exits_witness :
  outcome (Sample.run Sample.recursing 1 "ghost" 0) <> Stopped (Exit None).
Proof.
  apply (main_below_never_exits Sample.recursing Sample.registry
           Sample.dependentsView Sample.downloadsView Sample.semver_satisfies
           1 "ghost" 0 None).
  - reflexivity.
  - simpl. lia.
Defined.

Lemma main_requests_bounded_witness :
  (length (List.filter isRequest
             (events (Sample.run Sample.recursing 2 "left-pad" 1)))
   <= 3 * fanOut 3 1)%nat /\
  (length (List.filter isRequest
             (events (Sample.run Sample.recursing 2 "left-pad" 1)))
   <= 3 + 3 * 3)%nat.
Proof.
  destruct (main_requests_bounded Sample.recursing Sample.registry
              Sample.dependentsView Sample.downloadsView
              Sample.semver_satisfies 2 "left-pad" 1) as [Hall Hone];
    [simpl; lia | lia |].
  split; [exact Hall | apply Hone; reflexivity].
Defined.

Lemma tree_height_bounded_witness :
  (exists l,
      Sample.run (Sample.withDepths Sample.argv 2) 2 "left-pad" 1
      = (events (Sample.run (Sample.withDepths Sample.argv 2) 2 "left-pad" 1),
         Done (Some l)) /\
      Forall (fun t => (height t <= 1)%nat) l) /\
  Forall (fun t => (height t <= 1)%nat)
    (flat_map nodesOf (events (Sample.run Sample.filed 2 "left-pad" 1))).
Proof.
  destruct (tree_height_bounded (Sample.withDepths Sample.argv 2)
              Sample.registry Sample.dependentsView Sample.downloadsView
              Sample.semver_satisfies) as [Hret _].
  destruct (tree_height_bounded Sample.filed Sample.registry
              Sample.dependentsView Sample.downloadsView
              Sample.semver_satisfies) as [_ Htop].
  split.
  - eexists. split; [reflexivity |].
    eapply (Hret 2%nat "left-pad" 1); [discriminate | lia | reflexivity].
  - apply (Htop 1%nat "left-pad"
             (events (Sample.run Sample.filed 2 "left-pad" 1)) None);
      [discriminate | simpl; lia | reflexivity | reflexivity].
Defined.

Lemma traffic_is_downloads_times_size_witness :
  Forall (scoredUnder Sample.registry "left-pad") Sample.ranking /\
  Forall (scoredUnder Sample.registry "left-pad")
    (flat_map nodesOf (events (Sample.run Sample.accumulating 2 "left-pad" 1))).
Proof.
  destruct (traffic_is_downloads_times_size Sample.recursing Sample.registry
              Sample.dependentsView Sample.downloadsView
              Sample.semver_satisfies) as [Hret _].
  destruct (traffic_is_downloads_times_size Sample.accumulating
              Sample.registry Sample.dependentsView Sample.downloadsView
              Sample.semver_satisfies) as [_ Htop].
  split.
  - apply (Hret 1%nat "left-pad" 0
             (events (Sample.run Sample.recursing 1 "left-pad" 0))
             Sample.ranking). reflexivity.
  - apply (Htop 1%nat "left-pad"
             (events (Sample.run Sample.accumulating 2 "left-pad" 1)) None);
      reflexivity.
Defined.

Lemma file_holds_all_results_witness :
  exists info dependents scored topResults ev0 data rows,
    treeBuilt Sample.filed Sample.registry Sample.dependentsView
      Sample.downloadsView Sample.semver_satisfies 1 "left-pad" 1
      info dependents scored topResults /\
    Forall (fun e => isOutput e = false) ev0 /\
    events (Sample.run Sample.filed 2 "left-pad" 1)
    = (ev0 ++ WriteFile "out.json" data
           :: ConsoleLog (Text (tableHeader false))
           :: tableRows 0 rows false)%list /\
    Forall2 sameScore (sortBy byDownloads scored) data /\
    length data = length dependents /\
    sortedByDownloads data.
Proof.
  apply (file_holds_all_results Sample.filed Sample.registry
           Sample.dependentsView Sample.downloadsView Sample.semver_satisfies
           1 "left-pad" (events (Sample.run Sample.filed 2 "left-pad" 1))
           None "o"%char "ut.json");
    [exact sample_names_plain | reflexivity | reflexivity | reflexivity].
Defined.

(** ** The version filter *)

Lemma filter_all {A : Type} (f : A -> bool) (l : list A) :
  (forall x, f x = true) -> List.filter f l = l.
Proof.
  intros H. induction l as [| x l IH]; simpl; [reflexivity |].
  rewrite H, IH. reflexivity.
Qed.

Lemma startsWith_cons (a : ascii) (s : string) :
  startsWith (String a s) "@" = Ascii.eqb a at_sign.
Proof.
  unfold startsWith. cbn [String.prefix].
  destruct (ascii_dec "@" a) as [<- | E].
  - rewrite prefix_empty. reflexivity.
  - symmetry. apply Ascii.eqb_neq. unfold at_sign. congruence.
Qed.

Lemma hasChar_false_startsWith (token : string) :
  hasChar token at_sign = false -> startsWith token "@" = false.
Proof.
  destruct token as [| a token]; [reflexivity |].
  intros H. simpl in H. apply orb_false_elim in H as [Ha _].
  rewrite startsWith_cons. exact Ha.
Qed.

Lemma upTo_absent (s : string) (c : ascii) : hasChar s c = false -> upTo s c = s.
Proof.
  induction s as [| a s IH]; simpl; [reflexivity |].
  intros H. apply orb_false_elim in H as [Ha Hs]. rewrite Ha, IH by exact Hs.
  reflexivity.
Qed.

Lemma after_absent (s : string) (c : ascii) : hasChar s c = false -> after s c = None.
Proof.
  induction s as [| a s IH]; simpl; [reflexivity |].
  intros H. apply orb_false_elim in H as [Ha Hs]. rewrite Ha. apply IH, Hs.
Qed.

Lemma parse_no_at_sign (token : string) :
  hasChar token at_sign = false ->
  getPackageNameAndVersion token = (token, None).
Proof.
  intros H. rewrite parse_unscoped by (apply hasChar_false_startsWith, H).
  rewrite upTo_absent, after_absent by exact H. reflexivity.
Qed.

(** X8.  Without a requested version nothing is filtered: the version
    filter is the identity when the version is undefined or empty, which
    is the case for every token without ["@"], for every scoped token
    without a second ["@"], and for a token that ends with its only
    ["@"]; with a version that is not empty it keeps, in their order, the
    dependents whose range the resolved version satisfies. *)
Theorem versionFilter_without_version :
  (forall (satisfies : string -> string -> bool) (version : option string)
          (actualVersion : string) (rows : list (Row DependentValue)),
      falsyString version = true ->
      versionFilter satisfies version actualVersion rows = rows) /\
  (forall token : string,
      hasChar token at_sign = false ->
      falsyString (snd (getPackageNameAndVersion token)) = true) /\
  (forall rest : string,
      hasChar rest at_sign = false ->
      falsyString (snd (getPackageNameAndVersion (String at_sign rest))) = true) /\
  (forall name : string,
      hasChar name at_sign = false ->
      falsyString (snd (getPackageNameAndVersion (name +:+ "@"))) = true) /\
  (forall (satisfies : string -> string -> bool) (c : ascii) (version : string)
          (actualVersion : string) (rows : list (Row DependentValue)),
      versionFilter satisfies (Some (String c version)) actualVersion rows
        `sublist_of` rows /\
      forall d,
        In d (versionFilter satisfies (Some (String c version)) actualVersion rows)
        <-> In d rows /\
            satisfies actualVersion (dep_version (row_value d)) = true).
Proof.
  split; [| split; [| split; [| split]]].
  - intros satisfies version actual rows H. unfold versionFilter.
    apply filter_all. intros d. rewrite H. reflexivity.
  - intros token H. rewrite parse_no_at_sign by exact H. reflexivity.
  - intros rest H. rewrite parse_scoped_bare by exact H. reflexivity.
  - intros name H. destruct name as [| a name].
    + reflexivity.
    + simpl in H. apply orb_false_elim in H as [Ha Hn].
      change (String a name +:+ "@") with (String a (name +:+ "@")).
      rewrite parse_unscoped by (rewrite startsWith_cons; exact Ha).
      cbn [upTo after snd]. change at_sign with "@"%char in *. rewrite Ha.
      assert (E : after (name +:+ "@") "@"%char = Some EmptyString).
      { clear Ha. induction name as [| b name IH]; simpl; [reflexivity |].
        simpl in Hn. apply orb_false_elim in Hn as [Hb Hn].
        rewrite Hb. apply IH, Hn. }
      rewrite E. reflexivity.
  - intros satisfies c version actual rows. unfold versionFilter. simpl.
    split; [apply List_filter_sublist |].
    intros d. apply List.filter_In.
Qed.

Lemma versionFilter_without_version_witness :
  versionFilter Sample.semver_satisfies
    (snd (getPackageNameAndVersion "left-pad")) "1.3.0"
    [Sample.dependent "left-pad" "a" "^1.0.0"]
  = [Sample.dependent "left-pad" "a" "^1.0.0"] /\
  falsyString (snd (getPackageNameAndVersion "@babel/core")) = true /\
  falsyString (snd (getPackageNameAndVersion "left-pad@")) = true.
Proof.
  destruct versionFilter_without_version as (Hid & Hplain & Hscoped & Hend & _).
  split; [| split].
  - apply Hid. apply (Hplain "left-pad"). reflexivity.
  - apply (Hscoped "babel/core"). reflexivity.
  - apply (Hend "left-pad"). reflexivity.
Defined.

(** ** The download statistics *)

Lemma fold_insert_lookup (docs : list (string * Z)) (o : gmap string Z)
    (key : string) :
  fold_left (fun o kv => <[kv.1 := kv.2]> o) docs o !! key
  = match fold_left
            (fun found kv =>
               if String.eqb (fst kv) key then Some (snd kv) else found)
            docs (o !! key) with
    | Some v => Some v
    | None => None
    end.
Proof.
  revert o. induction docs as [| [k v] docs IH]; intros o; simpl.
  - destruct (o !! key); reflexivity.
  - rewrite IH.
    assert (E : <[k:=v]> o !! key
                = if String.eqb k key then Some v else o !! key).
    { destruct (String.eqb_spec k key) as [-> | Hne].
      - apply lookup_insert_eq.
      - apply lookup_insert_ne. exact Hne. }
    rewrite E. reflexivity.
Qed.

Lemma fromEntries_lookup (docs : list (string * Z)) (key : string) :
  fromEntries docs !! key = lastValue docs key.
Proof.
  unfold fromEntries, lastValue. rewrite fold_insert_lookup, lookup_empty.
  destruct (fold_left _ docs None); reflexivity.
Qed.

Lemma lastValue_from (docs : list (string * Z)) (key : string) (found : option Z) :
  fold_left
    (fun found kv => if String.eqb (fst kv) key then Some (snd kv) else found)
    docs found
  = match lastValue docs key with
    | Some v => Some v
    | None => found
    end.
Proof.
  unfold lastValue. revert found.
  induction docs as [| [k v] docs IH]; intros found; simpl; [reflexivity |].
  rewrite IH. rewrite (IH (if String.eqb k key then Some v else None)).
  destruct (fold_left _ docs None); [reflexivity |].
  destruct (String.eqb k key); reflexivity.
Qed.

Lemma lastValue_None (docs : list (string * Z)) (key : string) :
  lastValue docs key = None <-> ~ In key (map fst docs).
Proof.
  induction docs as [| [k v] docs IH]; simpl.
  - unfold lastValue. simpl. tauto.
  - unfold lastValue. simpl. rewrite lastValue_from.
    destruct (lastValue docs key) as [w |] eqn:E.
    + split; [discriminate |]. intros H. exfalso.
      assert (Hn : ~ In key (map fst docs)) by tauto.
      apply IH in Hn. discriminate.
    + destruct (String.eqb_spec k key) as [-> | Hne].
      * split; [discriminate | tauto].
      * split; [| reflexivity]. intros _ [H | H]; [contradiction |].
        apply (proj1 IH); [reflexivity | exact H].
Qed.

Lemma lastValue_app_last (docs docs' : list (string * Z)) (key : string) (v : Z) :
  ~ In key (map fst docs') ->
  lastValue (docs ++ (key, v) :: docs') key = Some v.
Proof.
  intros H. unfold lastValue. rewrite fold_left_app. simpl.
  rewrite String.eqb_refl, lastValue_from.
  apply lastValue_None in H. rewrite H. reflexivity.
Qed.

(** X9.  The object of the download statistics holds, for each key, the
    value of the last row with that key, and nothing for a key without a
    row.  A dependent with a row gets that value as downloads and that
    value times the size as traffic, also when its name is a member of
    [Object.prototype] such as ["constructor"]. *)
Theorem downloadStats_last_row_wins :
  (forall (rows : list (Row Z)) (key : string),
      fromEntries (entriesOf rows) !! key = lastValue (entriesOf rows) key) /\
  (forall (rows : list (Row Z)) (key : string),
      fromEntries (entriesOf rows) !! key = None
      <-> ~ In key (map row_key rows)) /\
  (forall (rows rows' : list (Row Z)) (row : Row Z),
      ~ In (row_key row) (map row_key rows') ->
      fromEntries (entriesOf (rows ++ row :: rows')) !! row_key row
      = Some (row_value row)) /\
  (forall (argv : Args) (info : NpmPackageInfo) (rows : list (Row Z))
          (dep : Row DependentValue) (v : Z),
      lastValue (entriesOf rows) (dep_name (row_value dep)) = Some v ->
      joinDownloads (fromEntries (entriesOf rows)) dep = JsNumber v /\
      exists node,
        score argv (fromEntries (entriesOf rows)) info dep = ret node /\
        name node = dep_name (row_value dep) /\
        downloads node = v /\
        traffic node = v * distSize info).
Proof.
  split; [| split; [| split]].
  - intros rows key. apply fromEntries_lookup.
  - intros rows key. rewrite fromEntries_lookup, lastValue_None.
    unfold entriesOf. rewrite map_map. simpl. reflexivity.
  - intros rows rows' row H. rewrite fromEntries_lookup.
    unfold entriesOf. rewrite map_app. simpl.
    apply lastValue_app_last. rewrite map_map. simpl. exact H.
  - intros argv info rows dep v H.
    assert (E : joinDownloads (fromEntries (entriesOf rows)) dep = JsNumber v).
    { unfold joinDownloads, getProperty. rewrite fromEntries_lookup, H.
      reflexivity. }
    split; [exact E |].
    unfold score. rewrite E. eexists. split; [reflexivity |].
    simpl. auto.
Qed.

Lemma downloadStats_last_row_wins_witness :
  fromEntries (entriesOf [Sample.stat "constructor" 1; Sample.stat "a" 5;
                          Sample.stat "constructor" 9])
    !! "constructor" = Some 9 /\
  joinDownloads
    (fromEntries (entriesOf [Sample.stat "constructor" 1; Sample.stat "a" 5;
                             Sample.stat "constructor" 9]))
    (Sample.dependent "left-pad" "constructor" "^1.0.0")
  = JsNumber 9.
Proof.
  destruct downloadStats_last_row_wins as (_ & _ & Hlast & Hjoin).
  split.
  - apply (Hlast [Sample.stat "constructor" 1; Sample.stat "a" 5]
             [] (Sample.stat "constructor" 9)).
    simpl. tauto.
  - apply (Hjoin Sample.argv
             {| info_name := "left-pad"; info_version := "1.3.0";
                info_homepage := None; info_dist := None |}
             [Sample.stat "constructor" 1; Sample.stat "a" 5;
              Sample.stat "constructor" 9]
             (Sample.dependent "left-pad" "constructor" "^1.0.0") 9).
    reflexivity.
Defined.

(** ** The exclude filter *)

Lemma prefix_iff (p s : string) :
  String.prefix p s = true <-> exists b, s = p +:+ b.
Proof.
  revert s. induction p as [| a p IH]; intros s.
  - rewrite prefix_empty. split; [intros _; exists s; reflexivity | reflexivity].
  - destruct s as [| c s]; cbn [String.prefix].
    + split; [discriminate | intros [b Hb]; discriminate].
    + destruct (ascii_dec a c) as [<- | Hne].
      * rewrite IH. split; intros [b Hb]; exists b.
        -- simpl. rewrite Hb. reflexivity.
        -- simpl in Hb. inversion Hb. reflexivity.
      * split; [discriminate |]. intros [b Hb]. simpl in Hb.
        inversion Hb. congruence.
Qed.

Lemma includes_iff (s p : string) :
  includes s p = true <-> exists a b, s = a +:+ p +:+ b.
Proof.
  induction s as [| c s IH].
  - cbn [includes]. rewrite orb_false_r, prefix_iff. split.
    + intros [b Hb]. exists EmptyString, b. exact Hb.
    + intros (a & b & H). destruct a; [exists b; exact H | discriminate].
  - cbn [includes]. rewrite orb_true_iff, prefix_iff, IH. split.
    + intros [[b Hb] | (a & b & H)].
      * exists EmptyString, b. exact Hb.
      * exists (String c a), b. simpl. rewrite H. reflexivity.
    + intros (a & b & H). destruct a as [| c' a].
      * left. exists b. exact H.
      * right. simpl in H. inversion H. exists a, b. reflexivity.
Qed.

Lemma split_cons (s : string) (sep : ascii) :
  exists piece pieces, split s sep = piece :: pieces.
Proof.
  induction s as [| c s (piece & pieces & E)]; simpl; [eauto |].
  destruct (Ascii.eqb c sep); [eauto |]. rewrite E. eauto.
Qed.

Lemma concat_cons (sep x y : string) (ls : list string) :
  String.concat sep (x :: y :: ls) = x +:+ sep +:+ String.concat sep (y :: ls).
Proof. reflexivity. Qed.

Lemma concat_split (s : string) (sep : ascii) :
  String.concat (String sep EmptyString) (split s sep) = s.
Proof.
  induction s as [| c s IH]; [reflexivity |].
  cbn [split]. destruct (split_cons s sep) as (piece & pieces & E).
  rewrite E in *. destruct (Ascii.eqb_spec c sep) as [-> | Hne].
  - rewrite concat_cons, IH. reflexivity.
  - destruct pieces as [| q pieces].
    + simpl in *. rewrite IH. reflexivity.
    + rewrite concat_cons. rewrite concat_cons in IH.
      simpl. rewrite <- IH. reflexivity.
Qed.

Lemma split_pieces (s : string) (sep : ascii) :
  Forall (fun piece => hasChar piece sep = false) (split s sep).
Proof.
  induction s as [| c s IH]; simpl; [repeat constructor |].
  destruct (Ascii.eqb c sep) eqn:Ec; [constructor; [reflexivity | exact IH] |].
  destruct (split s sep) as [| piece pieces]; [repeat constructor; simpl; rewrite Ec; reflexivity |].
  inversion IH; subst. constructor; [| assumption].
  simpl. rewrite Ec. assumption.
Qed.

(** X10.  The exclude filter keeps a node exactly when its name contains
    none of the entries of the exclude option as a substring, at any
    position and with the case as written; the entries are the pieces of
    the option between its commas (they have no comma, and joined by commas
    they give the option back); without the option every node is kept.  A
    row that is displayed and a node that is selected for recursion are
    nodes of the list that pass the filter. *)
Theorem exclude_drops_substrings (argv : Args) :
  (forall (exclude : string) (pkg : Results),
      arg_exclude argv = Some exclude ->
      (filterExcludes argv pkg = true <->
       forall ex, In ex (split exclude ","%char) ->
                  ~ exists a b, name pkg = a +:+ ex +:+ b)) /\
  (arg_exclude argv = None -> forall pkg, filterExcludes argv pkg = true) /\
  (forall exclude : string,
      String.concat "," (split exclude ","%char) = exclude /\
      Forall (fun ex => hasChar ex ","%char = false) (split exclude ","%char)) /\
  (forall (results : list Results) (r : Results),
      In r (displayed argv results) \/ In r (recursionSelection argv results) ->
      In r results /\ filterExcludes argv r = true).
Proof.
  split; [| split; [| split]].
  - intros exclude pkg Hex. unfold filterExcludes. rewrite Hex.
    rewrite forallb_forall. split.
    + intros H ex Hin Hsub. specialize (H ex Hin).
      apply includes_iff in Hsub. rewrite Hsub in H. discriminate.
    + intros H ex Hin. specialize (H ex Hin).
      destruct (includes (name pkg) ex) eqn:E; [| reflexivity].
      apply includes_iff in E. contradiction.
  - intros Hnone pkg. unfold filterExcludes. rewrite Hnone. reflexivity.
  - intros exclude. split; [apply concat_split | apply split_pieces].
  - intros results r H.
    assert (Hin : In r (List.filter (filterExcludes argv) results)).
    { destruct H as [H | H].
      - unfold displayed in H.
        apply list_elem_of_In in H. apply list_elem_of_In.
        eapply elem_of_sublist; [exact H |].
        etrans; apply slice0_sublist.
      - unfold recursionSelection in H.
        apply list_elem_of_In in H. apply list_elem_of_In.
        eapply elem_of_sublist; [exact H | apply slice0_sublist]. }
    apply List.filter_In in Hin. exact Hin.
Qed.

Lemma exclude_drops_substrings_witness :
  (filterExcludes (Sample.withExclude Sample.argv "p2,p5") (leaf "p3" 40) = true
   <-> forall ex, In ex (split "p2,p5" ","%char) ->
                  ~ exists a b, "p3" = a +:+ ex +:+ b) /\
  filterExcludes Sample.argv (leaf "p3" 40) = true /\
  (In (leaf "p3" 40) Sample.six /\
   filterExcludes (Sample.withExclude Sample.argv "p2,p5") (leaf "p3" 40) = true).
Proof.
  destruct (exclude_drops_substrings (Sample.withExclude Sample.argv "p2,p5"))
    as (Hiff & _ & _ & Hshown).
  destruct (exclude_drops_substrings Sample.argv) as (_ & Hnone & _).
  split; [| split].
  - apply (Hiff "p2,p5" (leaf "p3" 40)). reflexivity.
  - apply Hnone. reflexivity.
  - apply (Hshown Sample.six (leaf "p3" 40)). left. simpl. tauto.
Defined.

(** ** More about the input parser *)

Lemma hasChar_upTo (s : string) (c : ascii) : hasChar (upTo s c) c = false.
Proof.
  induction s as [| a s IH]; simpl; [reflexivity |].
  destruct (Ascii.eqb a c) eqn:E; [reflexivity |]. simpl. rewrite E. exact IH.
Qed.

Lemma upTo_prefix (s : string) (c : ascii) : exists b, s = upTo s c +:+ b.
Proof.
  induction s as [| a s [b Hb]]; simpl; [exists EmptyString; reflexivity |].
  destruct (Ascii.eqb a c); [eexists; reflexivity |].
  exists b. change (String a (upTo s c) +:+ b) with (String a (upTo s c +:+ b)).
  f_equal. exact Hb.
Qed.

Lemma upTo_app (name rest : string) (c : ascii) :
  hasChar name c = false -> upTo (name +:+ String c rest) c = name.
Proof.
  induction name as [| a name IH]; simpl; [rewrite Ascii.eqb_refl; reflexivity |].
  intros H. apply orb_false_elim in H as [Ha Hn]. rewrite Ha, IH by exact Hn.
  reflexivity.
Qed.

Lemma after_app (name rest : string) (c : ascii) :
  hasChar name c = false -> after (name +:+ String c rest) c = Some rest.
Proof.
  induction name as [| a name IH]; simpl; [rewrite Ascii.eqb_refl; reflexivity |].
  intros H. apply orb_false_elim in H as [Ha Hn]. rewrite Ha. apply IH, Hn.
Qed.

Lemma append_empty_r (s : string) : s +:+ EmptyString = s.
Proof.
  induction s as [| c s IH]; [reflexivity |].
  change (String c s +:+ EmptyString) with (String c (s +:+ EmptyString)).
  rewrite IH. reflexivity.
Qed.

Lemma startsWith_true_inv (token : string) :
  startsWith token "@" = true -> exists rest, token = String at_sign rest.
Proof.
  destruct token as [| a token]; [discriminate |].
  rewrite startsWith_cons. intros H. apply Ascii.eqb_eq in H as ->. eauto.
Qed.

(** X11.  Writing a name, ["@"] and a version and parsing the result
    gives the name and the version back, for a scoped name (one that
    starts with ["@"]) and for a name that is not empty and has no ["@"],
    when the version has no ["@"].  Whatever the token is, the version
    that the parser returns has no ["@"] and the name is a prefix of the
    token. *)
Theorem parse_round_trip :
  (forall rest version : string,
      hasChar version at_sign = false ->
      getPackageNameAndVersion (String at_sign rest +:+ "@" +:+ version)
      = (String at_sign rest, Some version)) /\
  (forall (a : ascii) (name version : string),
      hasChar (String a name) at_sign = false ->
      hasChar version at_sign = false ->
      getPackageNameAndVersion (String a name +:+ "@" +:+ version)
      = (String a name, Some version)) /\
  (forall token name version : string,
      getPackageNameAndVersion token = (name, Some version) ->
      hasChar version at_sign = false) /\
  (forall (token name : string) (version : option string),
      getPackageNameAndVersion token = (name, version) ->
      String.prefix name token = true).
Proof.
  split; [| split; [| split]].
  - intros rest version Hv.
    change (String at_sign rest +:+ "@" +:+ version)
      with (String at_sign (rest +:+ String at_sign version)).
    unfold getPackageNameAndVersion. rewrite startsWith_at_sign.
    change (String at_sign (rest +:+ String at_sign version))
      with (String at_sign rest +:+ String at_sign version).
    rewrite lastIndexOf_split by exact Hv.
    replace (strlen (String at_sign rest) =? 0) with false
      by (symmetry; apply Z.eqb_neq; unfold strlen; simpl String.length; lia).
    rewrite slice_before, sliceFrom_after. reflexivity.
  - intros a name version Hn Hv.
    change (String a name +:+ "@" +:+ version)
      with (String a name +:+ String at_sign version).
    rewrite parse_unscoped.
    2:{ change (String a name +:+ String at_sign version)
          with (String a (name +:+ String at_sign version)).
        rewrite startsWith_cons. simpl in Hn.
        apply orb_false_elim in Hn as [Ha _]. exact Ha. }
    rewrite upTo_app, after_app by exact Hn. simpl.
    rewrite upTo_absent by exact Hv. reflexivity.
  - intros token name version H.
    destruct (startsWith token "@") eqn:Hs.
    + apply startsWith_true_inv in Hs as [rest ->].
      destruct (hasChar rest at_sign) eqn:Hr.
      * destruct (parse_scoped_versioned rest Hr) as (n & v & _ & Hv & E).
        rewrite E in H. inversion H; subst. exact Hv.
      * rewrite (parse_scoped_bare rest Hr) in H. discriminate.
    + rewrite (parse_unscoped token Hs) in H. inversion H as [[Hn Hv]].
      destruct (after token at_sign) as [rest |]; [| discriminate].
      simpl in Hv. inversion Hv. apply hasChar_upTo.
  - intros token name version H.
    destruct (startsWith token "@") eqn:Hs.
    + apply startsWith_true_inv in Hs as [rest ->].
      destruct (hasChar rest at_sign) eqn:Hr.
      * destruct (parse_scoped_versioned rest Hr) as (n & v & Htok & _ & E).
        rewrite E in H. inversion H; subst. apply prefix_iff.
        eexists. exact Htok.
      * rewrite (parse_scoped_bare rest Hr) in H. inversion H; subst.
        apply prefix_iff. exists EmptyString.
        symmetry. apply append_empty_r.
    + rewrite (parse_unscoped token Hs) in H. inversion H; subst.
      apply prefix_iff. apply upTo_prefix.
Qed.

Lemma parse_round_trip_witness :
  getPackageNameAndVersion ("@babel/core" +:+ "@" +:+ "7.0.0")
    = ("@babel/core", Some "7.0.0") /\
  getPackageNameAndVersion ("left-pad" +:+ "@" +:+ "1.2.3")
    = ("left-pad", Some "1.2.3") /\
  hasChar "1.2.3" at_sign = false /\
  String.prefix "left-pad" "left-pad@1.2.3@next" = true.
Proof.
  destruct parse_round_trip as (Hscoped & Hplain & Hversion & Hprefix).
  split; [| split; [| split]].
  - apply (Hscoped "babel/core" "7.0.0"). reflexivity.
  - apply (Hplain "l"%char "eft-pad" "1.2.3"); reflexivity.
  - apply (Hversion "left-pad@1.2.3@next" "left-pad" "1.2.3"). reflexivity.
  - apply (Hprefix "left-pad@1.2.3@next" "left-pad" (Some "1.2.3")). reflexivity.
Defined.

(** ** More about the aggregator *)

Lemma Results_children_ind (P : Results -> Prop) :
  (forall r, Forall P (children r) -> P r) -> forall r, P r.
Proof.
  intros H.
  refine (fix IH (r : Results) : P r :=
            match r with
            | mkResults n d t dev c v =>
                H (mkResults n d t dev c v)
                  ((fix go (l : list Results) : Forall P l :=
                      match l with
                      | [] => @List.Forall_nil _ P
                      | x :: l' => @List.Forall_cons _ P x l' (IH x) (go l')
                      end) c)
            end).
Qed.

Lemma sumZ_app (a b : list Z) : sumZ (a ++ b) = sumZ a + sumZ b.
Proof. induction a as [| x a IH]; simpl; [reflexivity | rewrite IH; lia]. Qed.

Lemma sumZ_Permutation (a b : list Z) : Permutation a b -> sumZ a = sumZ b.
Proof. induction 1; simpl; lia. Qed.

Lemma accumulateStats_flatten (r : Results) :
  accumulateStats r = sumZ (map downloads (flatten r)).
Proof.
  induction r as [r IH] using Results_children_ind.
  rewrite accumulateStats_unfold.
  destruct r as [n d t dev c v]. simpl in *. f_equal.
  induction IH as [| x c Hx Hc IHc]; simpl; [reflexivity |].
  rewrite map_app, sumZ_app, Hx, IHc. reflexivity.
Qed.

Lemma accumulateStats_ge (r : Results) :
  Forall (fun n => 0 <= downloads n) (flatten r) ->
  downloads r <= accumulateStats r.
Proof.
  intros H. rewrite accumulateStats_flatten.
  destruct r as [n d t dev c v]. simpl in *.
  inversion H as [| ? ? _ Hrest]; subst.
  assert (0 <= sumZ (map downloads (flat_map flatten c))); [| lia].
  clear - Hrest. induction Hrest as [| x l Hx Hl IH]; simpl; lia.
Qed.

(** X12.  Accumulation neither loses nor invents downloads: the total
    of a node is the sum of the downloads of the node and of all the nodes
    below it; the downloads of the rows after the accumulation pass add up
    to the downloads of all the nodes of all the trees before it; the pass
    keeps the number of rows and their names; and when no node has
    negative downloads the total of a node is at least its own
    downloads. *)
Theorem accumulation_conserves_downloads :
  (forall r : Results, accumulateStats r = sumZ (map downloads (flatten r))) /\
  (forall (info : NpmPackageInfo) (l : list Results),
      sumZ (map downloads (accumulatePass info l))
      = sumZ (map downloads (flat_map flatten l)) /\
      length (accumulatePass info l) = length l /\
      Permutation (map name (accumulatePass info l)) (map name l)) /\
  (forall r : Results,
      Forall (fun n => 0 <= downloads n) (flatten r) ->
      downloads r <= accumulateStats r).
Proof.
  split; [exact accumulateStats_flatten |]. split; [| exact accumulateStats_ge].
  intros info l. unfold accumulatePass.
  pose proof (sortBy_Permutation byDownloads (map (accumulateNode info) l)) as Hp.
  split; [| split].
  - rewrite (sumZ_Permutation _ _ (Permutation_map downloads Hp)).
    rewrite map_map. simpl. clear Hp.
    induction l as [| r l IH]; simpl; [reflexivity |].
    rewrite map_app, sumZ_app, IH, <- accumulateStats_flatten. reflexivity.
  - rewrite (Permutation_length Hp). apply length_map.
  - rewrite (Permutation_map name Hp), map_map. simpl. reflexivity.
Qed.

Lemma accumulation_conserves_downloads_witness :
  downloads (Sample.node "b" "^1.2.0" 100 [leaf "e" 7; leaf "ghost" 0])
  <= accumulateStats (Sample.node "b" "^1.2.0" 100 [leaf "e" 7; leaf "ghost" 0]).
Proof.
  apply accumulation_conserves_downloads.
  repeat constructor; simpl; lia.
Defined.

(** ** The cells of the table *)

Lemma length_spaces (n : nat) : String.length (spaces n) = n.
Proof. induction n as [| n IH]; simpl; [reflexivity | rewrite IH; reflexivity]. Qed.

Lemma length_padEnd (s : string) (n : nat) :
  String.length (padEnd s n) = Nat.max (String.length s) n.
Proof. unfold padEnd. rewrite length_append, length_spaces. lia. Qed.

Lemma length_padStart (s : string) (n : nat) :
  String.length (padStart s n) = Nat.max (String.length s) n.
Proof. unfold padStart. rewrite length_append, length_spaces. lia. Qed.

Lemma length_digit (d : nat) : String.length (digit d) = 1%nat.
Proof. reflexivity. Qed.

Lemma length_decimalFuel_pos (fuel n : nat) :
  (n < fuel)%nat -> (1 <= String.length (decimalFuel fuel n))%nat.
Proof.
  destruct fuel as [| fuel]; [lia |]. intros _. simpl.
  destruct (n <? 10)%nat; [rewrite length_digit; lia |].
  rewrite length_append, length_digit. lia.
Qed.

Lemma length_decimalFuel_mono (fuel : nat) :
  forall n m fuel' : nat,
    (n <= m)%nat -> (m < fuel)%nat -> (n < fuel')%nat ->
    (String.length (decimalFuel fuel' n)
     <= String.length (decimalFuel fuel m))%nat.
Proof.
  induction fuel as [| fuel IH]; intros n m fuel' Hnm Hm Hn; [lia |].
  destruct fuel' as [| fuel']; [lia |].
  cbn [decimalFuel].
  destruct (Nat.ltb_spec n 10) as [Hn10 | Hn10].
  - rewrite length_digit.
    destruct (Nat.ltb_spec m 10); [rewrite length_digit; lia |].
    rewrite length_append, length_digit. lia.
  - destruct (Nat.ltb_spec m 10) as [Hm10 | Hm10]; [lia |].
    rewrite !length_append, !length_digit.
    assert (Hq : (n / 10 <= m / 10)%nat)
      by (apply Nat.Div0.div_le_mono; exact Hnm).
    assert (Hm' : (m / 10 < m)%nat) by (apply Nat.div_lt; lia).
    assert (Hn' : (n / 10 < n)%nat) by (apply Nat.div_lt; lia).
    pose proof (IH (n / 10)%nat (m / 10)%nat fuel' Hq ltac:(lia) ltac:(lia)).
    lia.
Qed.

Lemma length_decimal_mono (n m : nat) :
  (n <= m)%nat ->
  (String.length (decimal n) <= String.length (decimal m))%nat.
Proof.
  intros H. unfold decimal. apply length_decimalFuel_mono; lia.
Qed.

Lemma maxLength_from (cells : list string) (a : nat) :
  fold_left (fun a b => Nat.max a (String.length b)) cells a
  = Nat.max a (maxLength cells).
Proof.
  unfold maxLength. revert a.
  induction cells as [| c cells IH]; intros a; simpl; [lia |].
  rewrite IH, (IH (String.length c)). lia.
Qed.

Lemma maxLength_In (cells : list string) (c : string) :
  In c cells -> (String.length c <= maxLength cells)%nat.
Proof.
  induction cells as [| x cells IH]; simpl; [tauto |].
  unfold maxLength. simpl. rewrite maxLength_from.
  intros [-> | H]; [lia |]. specialize (IH H). lia.
Qed.

Lemma maxVersion_In (results : list Results) (pkg : Results) :
  In pkg results ->
  (String.length (version pkg)
   <= fold_left (fun a b => Nat.max a (String.length (version b))) results 0)%nat.
Proof.
  intros H.
  assert (E : forall l a,
             fold_left (fun a b => Nat.max a (String.length (version b))) l a
             = fold_left (fun a b => Nat.max a (String.length b))
                 (map version l) a).
  { intros l. induction l as [| x l IH]; intros a; simpl; [reflexivity | apply IH]. }
  rewrite E. apply (maxLength_In (map version results)).
  apply List.in_map. exact H.
Qed.

Lemma length_substring_le (n m : nat) (s : string) :
  (String.length (substring n m s) <= m)%nat.
Proof.
  revert n m. induction s as [| c s IH]; intros [| n] [| m]; simpl; try lia.
  - specialize (IH 0%nat m). lia.
  - apply (IH n 0%nat).
  - apply (IH n (S m)).
Qed.

Lemma length_substring_le_string (n m : nat) (s : string) :
  (String.length (substring n m s) <= String.length s)%nat.
Proof.
  revert n m. induction s as [| c s IH]; intros [| n] [| m]; simpl; try lia.
  - specialize (IH 0%nat m). lia.
  - specialize (IH n 0%nat). lia.
  - specialize (IH n (S m)). lia.
Qed.

Lemma length_slice_0_24 (v : string) :
  (String.length (slice v 0 24) <= Nat.min (String.length v) 24)%nat.
Proof.
  unfold slice, relativeIndex, strlen.
  replace (0 <? 0) with false by reflexivity.
  replace (24 <? 0) with false by reflexivity.
  apply Nat.min_glb; [apply length_substring_le_string |].
  etransitivity; [apply length_substring_le |]. lia.
Qed.

(** X13.  The columns of the table are aligned before the Markdown
    escaping: for every row of the displayed list, the index cell, the
    downloads cell, the traffic cell and the version cell have the widths
    computed for the whole list, so that they are the same in all the
    rows; the version cell is at most 24 characters wide. *)
Theorem table_columns_aligned (formatDownloads formatTraffic : Z -> string)
    (results : list Results) (index : nat) (pkg : Results) :
  nth_error results index = Some pkg ->
  let cells := cellsOf formatDownloads formatTraffic results index pkg in
  String.length (indexStr cells) = maxIndexWidth results /\
  String.length (downloadsStr cells)
  = maxDownloadsWidth formatDownloads results /\
  String.length (trafficStr cells) = maxTrafficWidth formatTraffic results /\
  String.length (versionStr cells) = maxVersionWidth results /\
  (maxVersionWidth results <= 24)%nat.
Proof.
  intros Hnth cells.
  assert (Hin : In pkg results) by (eapply nth_error_In; exact Hnth).
  assert (Hlt : (index < length results)%nat)
    by (apply nth_error_Some; congruence).
  subst cells. unfold cellsOf. cbn [indexStr downloadsStr trafficStr versionStr].
  split; [| split; [| split; [| split]]].
  - rewrite length_padEnd. unfold maxIndexWidth.
    pose proof (length_decimal_mono (index + 1) (length results)). lia.
  - rewrite length_padStart. unfold maxDownloadsWidth.
    pose proof (maxLength_In
                  (map (fun p => formatDownloads (downloads p)) results)
                  (formatDownloads (downloads pkg))) as H.
    assert (Hc : In (formatDownloads (downloads pkg))
                   (map (fun p => formatDownloads (downloads p)) results))
      by (apply (List.in_map (fun p => formatDownloads (downloads p))); exact Hin).
    specialize (H Hc). lia.
  - unfold maxTrafficWidth.
    destruct (truthy (traffic pkg)); rewrite length_padStart; [| simpl; lia].
    pose proof (maxLength_In
                  (map (fun p => formatTraffic (traffic p)) results)
                  (formatTraffic (traffic pkg))) as H.
    assert (Hc : In (formatTraffic (traffic pkg))
                   (map (fun p => formatTraffic (traffic p)) results))
      by (apply (List.in_map (fun p => formatTraffic (traffic p))); exact Hin).
    specialize (H Hc). lia.
  - rewrite length_padEnd. unfold maxVersionWidth.
    pose proof (length_slice_0_24 (version pkg)).
    pose proof (maxVersion_In results pkg Hin). lia.
  - unfold maxVersionWidth. lia.
Qed.

Lemma table_columns_aligned_witness :
  String.length
    (versionStr (cellsOf (fun _ => "5.00k") (fun _ => "5.00 MB")
                   Sample.ranking 2 (Sample.node "a" "^1.0.0" 5 [])))
  = maxVersionWidth Sample.ranking /\
  String.length
    (indexStr (cellsOf (fun _ => "5.00k") (fun _ => "5.00 MB")
                 Sample.ranking 2 (Sample.node "a" "^1.0.0" 5 [])))
  = maxIndexWidth Sample.ranking.
Proof.
  destruct (table_columns_aligned (fun _ => "5.00k") (fun _ => "5.00 MB")
              Sample.ranking 2 (Sample.node "a" "^1.0.0" 5 []))
    as (Hi & _ & _ & Hv & _).
  - reflexivity.
  - split; [exact Hv | exact Hi].
Defined.

(** ** The status of the process *)

Section Entry.

Variable argv : Args.
Variable registry : string -> string -> option NpmPackageInfo.
Variable dependentsView : string -> bool -> option DependentsResponse.
Variable downloadsView : list string -> option (list (Row Z)).
Variable semver_satisfies : string -> string -> bool.

(** No call of [main] gives [process.exit] a code. *)
Lemma main_exit_code (fuel : nat) (inputPackage : string) (depths : Z)
    (why : Abort) :
  outcome (main argv registry dependentsView downloadsView semver_satisfies
             fuel inputPackage depths) = Stopped why ->
  ~ (exists c, why = Exit (Some c)).
Proof.
  revert inputPackage depths why.
  induction fuel as [| fuel IH]; intros inputPackage depths.
  { simpl. intros why E [c ->]. discriminate. }
  cbn [main].
  destruct (getPackageNameAndVersion inputPackage) as [packageName version].
  apply bind_avoids; [discriminate |]. intros [info |].
  2:{ apply bind_avoids; [discriminate |]. intros _.
      destruct (truthy (arg_recursive argv) && negb (arg_depths argv =? depths));
        simpl; intros why E; inversion E; intros [c Hc]; discriminate. }
  apply bind_avoids.
  { unfold fetchDependents. apply bind_avoids; [discriminate |]. intros _.
    destruct (dependentsView _ _) as [[r | r] |]; simpl;
      intros why E; inversion E; intros [c Hc]; discriminate. }
  intros dependentsWithVersion. destruct (arg_list argv).
  { intros why E. rewrite outcome_bind, mapM_emit in E. discriminate. }
  apply bind_avoids.
  { unfold fetchDownloadStats. apply bind_avoids; [discriminate |]. intros _.
    destruct (downloadsView _); simpl;
      intros why E; inversion E; intros [c Hc]; discriminate. }
  intros downloadStats. apply bind_avoids.
  { apply mapM_avoids. intros dep. unfold score.
    destruct (joinDownloads downloadStats dep); simpl;
      intros why E; inversion E; intros [c Hc]; discriminate. }
  intros scored. apply bind_avoids.
  { destruct (truthy (arg_recursive argv) && truthy depths); [| discriminate].
    apply mapM_avoids. intros r.
    apply bind_avoids; [apply IH |].
    intros [c |]; simpl; intros why E; inversion E.
    intros [c' Hc]; discriminate. }
  intros top why E.
  destruct (finish_Done argv info (sortBy byDownloads scored) top depths)
    as [res E']. rewrite E' in E. discriminate.
Qed.

(** X14.  The process ends with status 1 only when no package name was
    given.  With a package name every run that is followed to its end has
    status 0, also when the package cannot be resolved or a request
    fails: [main] never gives [process.exit] a code, and an exception is
    only printed. *)
Theorem entry_status (fuel : nat) (status : Z) :
  snd (entry argv registry dependentsView downloadsView semver_satisfies fuel)
  = Some status ->
  status = if String.eqb (arg_pkg argv) "" then 1 else 0.
Proof.
  unfold entry. destruct (arg_pkg argv) as [| c inputPackage] eqn:Hpkg.
  { simpl. intros E. inversion E. reflexivity. }
  change (String.eqb (String c inputPackage) "") with false.
  pose proof (main_exit_code fuel (String c inputPackage) (arg_depths argv))
    as Hcode.
  destruct (main argv registry dependentsView downloadsView semver_satisfies
              fuel (String c inputPackage) (arg_depths argv))
    as [ev [res | [[code |] | message | what |]]];
    simpl in *; intros E; inversion E; try reflexivity.
  exfalso. apply (Hcode _ eq_refl). eexists; reflexivity.
Qed.

End Entry.

Lemma entry_status_witness :
  snd (entry (Sample.withPkg Sample.argv "ghost") Sample.registry
         Sample.dependentsView Sample.downloadsView Sample.semver_satisfies 1)
  = Some 0 /\
  0 = if String.eqb (arg_pkg (Sample.withPkg Sample.argv "ghost")) ""
      then 1 else 0.
Proof.
  split; [reflexivity |].
  apply (entry_status (Sample.withPkg Sample.argv "ghost") Sample.registry
           Sample.dependentsView Sample.downloadsView Sample.semver_satisfies
           1 0).
  reflexivity.
Defined.

(** ** The progress bar *)

Lemma length_repeatTimes (s : string) (n : nat) :
  String.length (repeatTimes s n) = (n * String.length s)%nat.
Proof.
  induction n as [| n IH]; simpl; [reflexivity |].
  rewrite length_append, IH. reflexivity.
Qed.

(** X15.  For a percentage from 0 to 100 the progress bar is drawn
    without a [RangeError]; between the brackets it is 20 characters wide
    when the percentage is a multiple of 5 and 19 characters wide
    otherwise, because both counts are truncated. *)
Theorem progressBar_width (percentage : Z) :
  0 <= percentage <= 100 ->
  exists bar : string,
    progressBar percentage = Some bar /\
    Z.of_nat (String.length bar)
    = if percentage mod 5 =? 0 then 22 else 21.
Proof.
  intros Hp. unfold progressBar, repeatString.
  rewrite !Z.quot_div_nonneg by lia.
  destruct (Z.ltb_spec (percentage / 5) 0) as [Hneg | _];
    [pose proof (Z.div_pos percentage 5); lia |].
  destruct (Z.ltb_spec ((100 - percentage) / 5) 0) as [Hneg | _];
    [pose proof (Z.div_pos (100 - percentage) 5); lia |].
  eexists. split; [reflexivity |].
  rewrite !length_append, !length_repeatTimes.
  change (String.length "[") with 1%nat.
  change (String.length "]") with 1%nat.
  change (String.length "=") with 1%nat.
  change (String.length " ") with 1%nat.
  pose proof (Z.div_pos percentage 5).
  pose proof (Z.div_pos (100 - percentage) 5).
  destruct (Z.eqb_spec (percentage mod 5) 0) as [Hm | Hm];
    rewrite !Nat2Z.inj_add, !Nat2Z.inj_mul, !Z2Nat.id by lia;
    simpl Z.of_nat;
    clear H H0; Z.div_mod_to_equations; lia.
Qed.

Lemma progressBar_width_witness :
  exists bar : string,
    progressBar 7 = Some bar /\ Z.of_nat (String.length bar) = 21.
Proof.
  apply (progressBar_width 7). lia.
Defined.

(** ** Runs in which every download count is a number *)





Section Numbers.

Variable argv : Args.
Variable registry : string -> string -> option NpmPackageInfo.
Variable dependentsView : string -> bool -> option DependentsResponse.
Variable downloadsView : list string -> option (list (Row Z)).
Variable semver_satisfies : string -> string -> bool.

Let run := main argv registry dependentsView downloadsView semver_satisfies.





End Numbers.


